(** * ion_functions.data.ph_functions: the PHSEN (SAMI-II) seawater pH product

    A shallow embedding of [ion_functions/data/ph_functions.py].

    Numbers.  The program computes on numpy [float64] values.  Lines
    141-200 (blanks, absorbances, absorptivities, candidate pH) are
    idealised on the real numbers of the Standard Library: rounding,
    infinities and NaN are not modelled there, and a division by zero and
    the logarithm of a number that is not positive are total operations, as
    they are in numpy (which warns and continues with inf or nan); no proof
    below uses the value the Standard Library gives them.  The scalar
    arguments are taken to be numpy scalars, as the record loop of
    [ph_calc_phwater] passes them: the
    [ZeroDivisionError] that a Python [float] raises on a zero divisor
    (lines 181 and 189) is not modelled.

    From line 205 on (window search, [np.argmax], final regression) the
    outcome depends on rounding and on NaN.  These lines are embedded a
    second time in the module [Fl], over an arithmetic that is a parameter:
    its instance [Fl.binary64] is IEEE 754 binary64 with the primitive
    floats of Rocq, its instance [Fl.exact] is real arithmetic, and the
    idealised run of [ph_phwater_locals] is [Fl.ph_tail] at [Fl.exact]
    (lemma [ph_phwater_locals_tail]).  What is stated about the window
    search and the final regression is stated on [Fl].

    Control.  The only way the modelled code stops early is a Python
    exception raised by an indexing or a shape operation of numpy; these are
    threaded through an error monad, in the order in which the source
    evaluates them. *)

From Stdlib Require Import Reals Lra Lia List Arith Bool.
From Stdlib Require Floats.
Import ListNotations.
Open Scope R_scope.

Set Implicit Arguments.

(** ** Exceptions and the error monad *)

(** The Python exceptions the modelled operations raise: [IndexError] for an
    index out of bounds (or too many indices), [ValueError] for a shape that
    does not fit ([np.reshape], [np.vstack], broadcasting, [np.argmax] of an
    empty array). *)
Inductive exn : Set := IndexError | ValueError.

Inductive result (A : Type) : Type :=
| Ok (a : A)
| Raise (e : exn).

Arguments Ok {A} a.
Arguments Raise {A} e.

Definition bind {A B : Type} (m : result A) (k : A -> result B) : result B :=
  match m with
  | Ok a => k a
  | Raise e => Raise e
  end.

Notation "x <- m ;; k" := (bind m (fun x => k))
  (at level 61, m at next level, right associativity).
Notation "' p <- m ;; k" := (bind m (fun p => k))
  (at level 61, p pattern, m at next level, right associativity).

(** ** numpy values *)

(** An n-dimensional array of floats, for the one and two dimensional shapes
    the wrappers are "coded to accept". *)
Inductive ndarray : Type :=
| Arr1 (v : list R)
| Arr2 (rows : list (list R)).

(** A value that is either a Python/numpy scalar or a one dimensional
    array (the salinity argument). *)
Inductive npval : Type :=
| Scalar (x : R)
| Arr (v : list R).

(** Complex numbers, as (real part, imaginary part). *)
Definition C : Type := (R * R)%type.

(** What [np.lib.scimath.log10] hands back: a real or a complex array. *)
Inductive logvec : Type :=
| RealVec (v : list R)
| ComplexVec (v : list C).

(** ** numpy operations *)

Module Np.

(** [a[k]] for a one dimensional array and [k >= 0]. *)
Definition getitem (a : list R) (k : nat) : result R :=
  match nth_error a k with
  | Some x => Ok x
  | None => Raise IndexError
  end.

(** [a[k, :]] for a two dimensional array and [k >= 0]. *)
Definition getrow (a : list (list R)) (k : nat) : result (list R) :=
  match nth_error a k with
  | Some r => Ok r
  | None => Raise IndexError
  end.

(** [a[k] = x], for [k] within bounds. *)
Fixpoint setitem (a : list R) (k : nat) (x : R) : list R :=
  match a, k with
  | [], _ => []
  | _ :: t, O => x :: t
  | h :: t, S k' => h :: setitem t k' x
  end.

(** [a[i:j]] for [0 <= i <= j]; like numpy it clips at the end. *)
Definition slice {A : Type} (i j : nat) (a : list A) : list A :=
  firstn (j - i) (skipn i a).

(** [a[i:]]. *)
Definition slice_from {A : Type} (i : nat) (a : list A) : list A :=
  skipn i a.

Definition zeros (n : nat) : list R := repeat 0 n.

(** Row-major split of a flat array into [rows] rows of [cols] items. *)
Fixpoint chunks (cols rows : nat) (a : list R) : list (list R) :=
  match rows with
  | O => []
  | S r => firstn cols a :: chunks cols r (skipn cols a)
  end.

(** [np.reshape(a, (rows, cols))]: fails unless the sizes agree. *)
Definition reshape (a : list R) (rows cols : nat) : result (list (list R)) :=
  if Nat.eqb (length a) (rows * cols)
  then Ok (chunks cols rows a)
  else Raise ValueError.

(** [m[:, k]], for a column [k] that exists. *)
Definition column (k : nat) (m : list (list R)) : list R :=
  map (fun row => nth k row 0) m.

(** [np.vstack((tmp, row))] with [row] one dimensional. *)
Definition vstack (tmp : ndarray) (row : list R) : result ndarray :=
  match tmp with
  | Arr1 t =>
      if Nat.eqb (length t) (length row)
      then Ok (Arr2 [t; row]) else Raise ValueError
  | Arr2 m =>
      if forallb (fun r => Nat.eqb (length r) (length row)) m
      then Ok (Arr2 (m ++ [row])) else Raise ValueError
  end.

(** [tmp[1:, :]]: two indices need a two dimensional array. *)
Definition drop_first_row (tmp : ndarray) : result ndarray :=
  match tmp with
  | Arr1 _ => Raise IndexError
  | Arr2 m => Ok (Arr2 (slice_from 1 m))
  end.

(** Elementwise binary operation on two arrays of one length. *)
Fixpoint zipWith {A B D : Type} (f : A -> B -> D) (a : list A) (b : list B)
  : list D :=
  match a, b with
  | x :: a', y :: b' => f x y :: zipWith f a' b'
  | _, _ => []
  end.

Definition sum (a : list R) : R := fold_right Rplus 0 a.

Definition mean (a : list R) : R := sum a / INR (length a).

Definition log10 (x : R) : R := ln x / ln 10.

(** [np.linspace(start, stop, num)]:
    [arange(0, num) * ((stop - start) / (num - 1)) + start]. *)
Definition linspace (start stop : R) (num : nat) : list R :=
  map (fun k => INR k * ((stop - start) / INR (num - 1)) + start)
      (seq 0 num).

(** [np.argmax] on real numbers: walks the array and keeps the first strict
    maximum.  Among real numbers there is no NaN; what numpy does with one
    is in [Fl.argmax]. *)
Fixpoint argmax_from (best : R) (besti i : nat) (a : list R) : nat :=
  match a with
  | [] => besti
  | x :: t =>
      if Rlt_dec best x
      then argmax_from x i (S i) t
      else argmax_from best besti (S i) t
  end.

Definition argmax (a : list R) : result nat :=
  match a with
  | [] => Raise ValueError
  | x :: t => Ok (argmax_from x 0 1 t)
  end.

(** One dimensional broadcasting of a binary operation: shapes (n,) and
    (m,) fit when n = m or one of them is 1. *)
Definition broadcast {A B D : Type} (f : A -> B -> D)
           (a : list A) (b : list B) : result (list D) :=
  match a, b with
  | [x], _ => Ok (map (f x) b)
  | _, [y] => Ok (map (fun x => f x y) a)
  | _, _ =>
      if Nat.eqb (length a) (length b)
      then Ok (zipWith f a b) else Raise ValueError
  end.

(** Complex logarithm to base 10 ([np.log10] on a complex array). *)
Definition Cmod (z : C) : R := sqrt (fst z * fst z + snd z * snd z).

Definition Carg (z : C) : R :=
  if Req_dec_T (snd z) 0
  then (if Rlt_dec (fst z) 0 then PI else 0)
  else 2 * atan (snd z / (Cmod z + fst z)).

Definition clog10 (z : C) : C := (ln (Cmod z) / ln 10, Carg z / ln 10).

Definition tocomplex (x : R) : C := (x, 0).

Definition Cadd_real (p : R) (z : C) : C := (p + fst z, snd z).

(** [np.lib.scimath.log10(x)]: when some entry is negative the whole array
    is converted to complex first, then [np.log10] is applied. *)
Definition scimath_log10 (x : list R) : logvec :=
  if existsb (fun v => if Rlt_dec v 0 then true else false) x
  then ComplexVec (map (fun v => clog10 (tocomplex v)) x)
  else RealVec (map log10 x).

(** [pKa + lg], [pKa] a real scalar or array. *)
Definition add_log (pKa : npval) (lg : logvec) : result logvec :=
  match pKa, lg with
  | Scalar p, RealVec v => Ok (RealVec (map (Rplus p) v))
  | Scalar p, ComplexVec v => Ok (ComplexVec (map (Cadd_real p) v))
  | Arr ps, RealVec v => r <- broadcast Rplus ps v ;; Ok (RealVec r)
  | Arr ps, ComplexVec v => r <- broadcast Cadd_real ps v ;; Ok (ComplexVec r)
  end.

(** [np.real]. *)
Definition real (a : logvec) : list R :=
  match a with
  | RealVec v => v
  | ComplexVec v => map fst v
  end.

(** A scalar function applied to a scalar or elementwise to an array. *)
Definition npmap (f : R -> R) (a : npval) : npval :=
  match a with
  | Scalar x => Scalar (f x)
  | Arr v => Arr (map f v)
  end.

End Np.

(** ** The pH of seawater, one record: [ph_phwater] *)

(** The local variables of [ph_phwater] after a run to its last line.  The
    source rebinds [ea434], [ea578], [eb434] and [eb578] to their
    temperature-corrected values; the rebound values are primed here.  The
    source's [R] and [I] are [R_] and [I_]. *)
Record locals : Type := mkLocals {
  blank434 : R;
  blank578 : R;
  ref434 : list R;
  int434 : list R;
  ref578 : list R;
  int578 : list R;
  A434 : list R;
  A434blank : R;
  abs434 : list R;
  A578 : list R;
  A578blank : R;
  abs578 : list R;
  pKa : npval;
  R_ : list R;
  ea434' : R;
  ea578' : R;
  eb434' : R;
  eb578' : R;
  e1 : R;
  e2 : R;
  e3 : R;
  V1 : list R;
  V2 : list R;
  HI : list R;
  I_ : list R;
  IndConc : list R;
  pointph : list R;
  IndConca : list R;
  Y : list R;
  X : list R;
  r2 : list R;
  cutoff1 : nat;
  cutoff2 : nat;
  IndConcS : list R;
  pointphS : list R;
  slope : R;
  ph : R
}.

(** The body of the window loop, lines 220-232: the value stored in
    [r2[i]], at exact arithmetic ([Fl.r2_window] has the float64 one). *)
Definition r2_window (X Y : list R) (count i : nat) : R :=
  let sumx := Np.sum (Np.slice i (i + count) X) in
  let sumy := Np.sum (Np.slice i (i + count) Y) in
  let sumxy := Np.sum (Np.zipWith Rmult (Np.slice i (i + count) X)
                                        (Np.slice i (i + count) Y)) in
  let sumx2 := Np.sum (map (fun x => x ^ 2) (Np.slice i (i + count) X)) in
  let sumy2 := Np.sum (map (fun y => y ^ 2) (Np.slice i (i + count) Y)) in
  let avgx := Np.mean (Np.slice i (i + count) X) in
  let avgy := Np.mean (Np.slice i (i + count) Y) in
  let sumxx := sumx * sumx in
  let sumyy := sumy * sumy in
  let ssxy := sumxy - (sumx * sumy) / INR count in
  let ssx := sumx2 - (sumxx / INR count) in
  let ssy := sumy2 - (sumyy / INR count) in
  ssxy ^ 2 / (ssx * ssy).

(** [for i in range(n): a[i] = f(i)]. *)
Definition fill_loop (n : nat) (f : nat -> R) (a : list R) : list R :=
  fold_left (fun acc i => Np.setitem acc i (f i)) (seq 0 n) a.

(** Lines 141-158: the blanks from the 16 reference light measurements,
    [(blank434, blank578)]. *)
Definition blanks (ref : list R) : result (R * R) :=
  r1 <- Np.getitem ref 1 ;; r0 <- Np.getitem ref 0 ;;
  r5 <- Np.getitem ref 5 ;; r4 <- Np.getitem ref 4 ;;
  r9 <- Np.getitem ref 9 ;; r8 <- Np.getitem ref 8 ;;
  r13 <- Np.getitem ref 13 ;; r12 <- Np.getitem ref 12 ;;
  let arr434 := [r1 / r0; r5 / r4; r9 / r8; r13 / r12] in
  let blank434 := Np.mean arr434 in
  r3 <- Np.getitem ref 3 ;; r2_ <- Np.getitem ref 2 ;;
  r7 <- Np.getitem ref 7 ;; r6 <- Np.getitem ref 6 ;;
  r11 <- Np.getitem ref 11 ;; r10 <- Np.getitem ref 10 ;;
  r15 <- Np.getitem ref 15 ;; r14 <- Np.getitem ref 14 ;;
  let arr578 := [r3 / r2_; r7 / r6; r11 / r10; r15 / r14] in
  let blank578 := Np.mean arr578 in
  Ok (blank434, blank578).

Definition ph_phwater_locals (ref light : list R)
           (therm ea434 eb434 ea578 eb578 : R) (psal : npval) : result locals :=
  (* Calculate blanks from the 16 sets of reference light measurements *)
  bb <- blanks ref ;;
  let blank434 := fst bb in
  let blank578 := snd bb in
  (* Extract 23 sets of 4 light measurements *)
  new <- Np.reshape light 23 4 ;;
  let ref434 := Np.column 0 new in
  let int434 := Np.column 1 new in
  let ref578 := Np.column 2 new in
  let int578 := Np.column 3 new in
  (* Absorbance *)
  let A434 := map (fun q => - Np.log10 q) (Np.zipWith Rdiv int434 ref434) in
  let A434blank := - Np.log10 blank434 in
  let abs434 := map (fun a => a - A434blank) A434 in
  let A578 := map (fun q => - Np.log10 q) (Np.zipWith Rdiv int578 ref578) in
  let A578blank := - Np.log10 blank578 in
  let abs578 := map (fun a => a - A578blank) A578 in
  (* pka from Clayton and Byrne, 1993 *)
  let pKa := Np.npmap (fun s => (1245.69 / (therm + 273.15)) + 3.8275
                                + (0.0021 * (35 - s))) psal in
  let R_ := Np.zipWith Rdiv (map (fun a => a - A578blank) A578)
                            (map (fun a => a - A434blank) A434) in
  (* Molar absorptivities *)
  let ea434' := ea434 - (26 * (therm - 24.788)) in
  let ea578' := ea578 + (therm - 24.788) in
  let eb434' := eb434 + (12 * (therm - 24.788)) in
  let eb578' := eb578 - (71 * (therm - 24.788)) in
  let e1 := ea578' / ea434' in
  let e2 := eb578' / ea434' in
  let e3 := eb434' / ea434' in
  let V1 := map (fun r => r - e1) R_ in
  let V2 := map (fun r => e2 - r * e3) R_ in
  (* indicator concentration calculations *)
  let HI := map (fun n => n / (ea434' * eb578' - eb434' * ea578'))
                (Np.zipWith Rminus (map (fun a => a * eb578') abs434)
                                   (map (fun a => a * eb434') abs578)) in
  let I_ := map (fun n => n / (ea434' * eb578' - eb434' * ea578'))
                (Np.zipWith Rminus (map (fun a => a * ea434') abs578)
                                   (map (fun a => a * ea578') abs434)) in
  let IndConc := Np.zipWith Rplus HI I_ in
  s <- Np.add_log pKa (Np.scimath_log10 (Np.zipWith Rdiv V1 V2)) ;;
  let pointph := Np.real s in
  (* Initial pH Calcs: the most linear region, skipping the first 5 points *)
  let IndConca := Np.slice_from 5 IndConc in
  let Y := Np.slice_from 5 pointph in
  let X := Np.linspace 1 18 18 in
  let step := 7%nat in
  let count := (step + 1)%nat in
  let npts := (length X - step)%nat in
  let r2 := fill_loop npts (r2_window X Y count) (Np.zeros npts) in
  (* Range of seawater points to use *)
  cutoff1 <- Np.argmax r2 ;;
  let cutoff2 := (cutoff1 + count)%nat in
  (* Indicator and pH range limited to best points *)
  let IndConcS := Np.slice cutoff1 cutoff2 IndConca in
  let pointphS := Np.slice cutoff1 cutoff2 Y in
  (* Final pH Calcs *)
  let sumx := Np.sum IndConcS in
  let sumy := Np.sum pointphS in
  let sumxy := Np.sum (Np.zipWith Rmult pointphS IndConcS) in
  let sumx2 := Np.sum (map (fun x => x ^ 2) IndConcS) in
  let sumy2 := Np.sum (map (fun y => y ^ 2) pointphS) in
  let xbar := Np.mean IndConcS in
  let ybar := Np.mean pointphS in
  let sumxx := sumx * sumx in
  let sumyy := sumy * sumy in
  let ssxy := sumxy - (sumx * sumy) / INR count in
  let ssx := sumx2 - (sumxx / INR count) in
  let ssy := sumy2 - (sumyy / INR count) in
  let slope := ssxy / ssx in
  let ph := ybar - slope * xbar in
  Ok {| blank434 := blank434; blank578 := blank578;
        ref434 := ref434; int434 := int434;
        ref578 := ref578; int578 := int578;
        A434 := A434; A434blank := A434blank; abs434 := abs434;
        A578 := A578; A578blank := A578blank; abs578 := abs578;
        pKa := pKa; R_ := R_;
        ea434' := ea434'; ea578' := ea578';
        eb434' := eb434'; eb578' := eb578';
        e1 := e1; e2 := e2; e3 := e3; V1 := V1; V2 := V2;
        HI := HI; I_ := I_; IndConc := IndConc; pointph := pointph;
        IndConca := IndConca; Y := Y; X := X; r2 := r2;
        cutoff1 := cutoff1; cutoff2 := cutoff2;
        IndConcS := IndConcS; pointphS := pointphS;
        slope := slope; ph := ph |}.

(** [ph_phwater] returns the last local, [ph]. *)
Definition ph_phwater (ref light : list R)
           (therm ea434 eb434 ea578 eb578 : R) (psal : npval) : result R :=
  l <- ph_phwater_locals ref light therm ea434 eb434 ea578 eb578 psal ;;
  Ok (ph l).

(** ** The L0 extraction wrappers *)

(** The loop of the multi-record branch (lines 27-30 and 48-51): each
    record is reshaped and its column [k] is stacked under [tmp]. *)
Fixpoint stack_column (k : nat) (light : list (list R)) (tmp : ndarray)
  : result ndarray :=
  match light with
  | [] => Ok tmp
  | iRec :: rest =>
      new <- Np.reshape iRec 23 4 ;;
      tmp' <- Np.vstack tmp (Np.column k new) ;;
      stack_column k rest tmp'
  end.

Definition ph_434_intensity (light : ndarray) : result ndarray :=
  match light with
  | Arr1 light =>
      new <- Np.reshape light 23 4 ;;
      let si434 := Np.column 3 new in
      Ok (Arr1 si434)
  | Arr2 light =>
      let tmp := Arr1 (Np.zeros 23) in
      tmp <- stack_column 1 light tmp ;;
      si434 <- Np.drop_first_row tmp ;;
      Ok si434
  end.

Definition ph_578_intensity (light : ndarray) : result ndarray :=
  match light with
  | Arr1 light =>
      new <- Np.reshape light 23 4 ;;
      let si578 := Np.column 3 new in
      Ok (Arr1 si578)
  | Arr2 light =>
      let tmp := Arr1 (Np.zeros 23) in
      tmp <- stack_column 3 light tmp ;;
      si578 <- Np.drop_first_row tmp ;;
      Ok si578
  end.

(** ** The vectorising wrapper: [ph_calc_phwater] *)

(** The argument tuples the wrapper is coded to accept, told apart in the
    source by [ref.ndim == 1]: one record (arrays of one dimension and
    scalars), or several (arrays of two dimensions, and one entry per record
    of the thermistor reading and of each coefficient).  [psal] is [None]
    when the caller leaves it out. *)
Inductive phwater_args : Type :=
| OneRecord (ref light : list R)
            (therm ea434 eb434 ea578 eb578 : R) (psal : option npval)
| ManyRecords (ref light : list (list R))
              (therm ea434 eb434 ea578 eb578 : list R) (psal : option npval).

(** The default of the keyword argument, [psal=35.0]. *)
Definition psal_default (psal : option npval) : npval :=
  match psal with
  | Some p => p
  | None => Scalar 35
  end.

(** Lines 90-91: a scalar salinity becomes [np.tile(psal, (nRec, 1))], an
    array of shape (nRec, 1); an array is left as it is. *)
Definition tile_psal (psal : npval) (nRec : nat) : ndarray :=
  match psal with
  | Scalar s => Arr2 (repeat [s] nRec)
  | Arr v => Arr1 v
  end.

(** [psal[iRec]]. *)
Definition psal_item (psal : ndarray) (iRec : nat) : result npval :=
  match psal with
  | Arr1 v => x <- Np.getitem v iRec ;; Ok (Scalar x)
  | Arr2 m => r <- Np.getrow m iRec ;; Ok (Arr r)
  end.

(** The right-hand side of the assignment in the loop, lines 95-97; the
    arguments are evaluated from left to right, then the call is made. *)
Definition record_ph (ref light : list (list R))
           (therm ea434 eb434 ea578 eb578 : list R) (psal : ndarray)
           (iRec : nat) : result R :=
  ref_i <- Np.getrow ref iRec ;;
  light_i <- Np.getrow light iRec ;;
  therm_i <- Np.getitem therm iRec ;;
  ea434_i <- Np.getitem ea434 iRec ;;
  eb434_i <- Np.getitem eb434 iRec ;;
  ea578_i <- Np.getitem ea578 iRec ;;
  eb578_i <- Np.getitem eb578 iRec ;;
  psal_i <- psal_item psal iRec ;;
  ph_phwater ref_i light_i therm_i ea434_i eb434_i ea578_i eb578_i psal_i.

(** [for iRec in range(nRec): pH[iRec] = body(iRec)]; an exception in the
    body leaves the loop and the function. *)
Fixpoint record_loop (body : nat -> result R) (iRecs : list nat)
         (pH : list R) : result (list R) :=
  match iRecs with
  | [] => Ok pH
  | iRec :: rest =>
      v <- body iRec ;;
      record_loop body rest (Np.setitem pH iRec v)
  end.

Definition ph_calc_phwater (args : phwater_args) : result npval :=
  match args with
  | OneRecord ref light therm ea434 eb434 ea578 eb578 psal =>
      let psal := psal_default psal in
      pH <- ph_phwater ref light therm ea434 eb434 ea578 eb578 psal ;;
      Ok (Scalar pH)
  | ManyRecords ref light therm ea434 eb434 ea578 eb578 psal =>
      let psal := psal_default psal in
      let nRec := length ref in
      let pH := Np.zeros nRec in
      let psal := tile_psal psal nRec in
      pH <- record_loop
              (record_ph ref light therm ea434 eb434 ea578 eb578 psal)
              (seq 0 nRec) pH ;;
      Ok (Arr pH)
  end.

(** ** Auxiliary definitions for the statements *)

(** What a completed run of [ph_phwater_locals] says about its inputs and
    about each local variable, in the words of the source. *)
Record ran (ref light : list R) (therm ea434 eb434 ea578 eb578 : R)
       (psal : npval) (L : locals) : Prop := mkRan {
  ran_ref : (16 <= length ref)%nat;
  ran_light : length light = 92%nat;
  ran_blank434 :
    blank434 L = Np.mean [nth 1 ref 0 / nth 0 ref 0; nth 5 ref 0 / nth 4 ref 0;
                          nth 9 ref 0 / nth 8 ref 0; nth 13 ref 0 / nth 12 ref 0];
  ran_blank578 :
    blank578 L = Np.mean [nth 3 ref 0 / nth 2 ref 0; nth 7 ref 0 / nth 6 ref 0;
                          nth 11 ref 0 / nth 10 ref 0; nth 15 ref 0 / nth 14 ref 0];
  ran_ref434 : ref434 L = Np.column 0 (Np.chunks 4 23 light);
  ran_int434 : int434 L = Np.column 1 (Np.chunks 4 23 light);
  ran_ref578 : ref578 L = Np.column 2 (Np.chunks 4 23 light);
  ran_int578 : int578 L = Np.column 3 (Np.chunks 4 23 light);
  ran_A434 :
    A434 L = map (fun q => - Np.log10 q) (Np.zipWith Rdiv (int434 L) (ref434 L));
  ran_A434blank : A434blank L = - Np.log10 (blank434 L);
  ran_abs434 : abs434 L = map (fun a => a - A434blank L) (A434 L);
  ran_A578 :
    A578 L = map (fun q => - Np.log10 q) (Np.zipWith Rdiv (int578 L) (ref578 L));
  ran_A578blank : A578blank L = - Np.log10 (blank578 L);
  ran_abs578 : abs578 L = map (fun a => a - A578blank L) (A578 L);
  ran_pKa :
    pKa L = Np.npmap (fun s => (1245.69 / (therm + 273.15)) + 3.8275
                               + (0.0021 * (35 - s))) psal;
  ran_R : R_ L = Np.zipWith Rdiv (map (fun a => a - A578blank L) (A578 L))
                                 (map (fun a => a - A434blank L) (A434 L));
  ran_ea434 : ea434' L = ea434 - (26 * (therm - 24.788));
  ran_ea578 : ea578' L = ea578 + (therm - 24.788);
  ran_eb434 : eb434' L = eb434 + (12 * (therm - 24.788));
  ran_eb578 : eb578' L = eb578 - (71 * (therm - 24.788));
  ran_e1 : e1 L = ea578' L / ea434' L;
  ran_e2 : e2 L = eb578' L / ea434' L;
  ran_e3 : e3 L = eb434' L / ea434' L;
  ran_V1 : V1 L = map (fun r => r - e1 L) (R_ L);
  ran_V2 : V2 L = map (fun r => e2 L - r * e3 L) (R_ L);
  ran_HI :
    HI L = map (fun n => n / (ea434' L * eb578' L - eb434' L * ea578' L))
               (Np.zipWith Rminus (map (fun a => a * eb578' L) (abs434 L))
                                  (map (fun a => a * eb434' L) (abs578 L)));
  ran_I :
    I_ L = map (fun n => n / (ea434' L * eb578' L - eb434' L * ea578' L))
               (Np.zipWith Rminus (map (fun a => a * ea434' L) (abs578 L))
                                  (map (fun a => a * ea578' L) (abs434 L)));
  ran_IndConc : IndConc L = Np.zipWith Rplus (HI L) (I_ L);
  ran_pointph :
    exists s, Np.add_log (pKa L)
                (Np.scimath_log10 (Np.zipWith Rdiv (V1 L) (V2 L))) = Ok s
              /\ pointph L = Np.real s;
  ran_IndConca : IndConca L = Np.slice_from 5 (IndConc L);
  ran_Y : Y L = Np.slice_from 5 (pointph L);
  ran_X : X L = Np.linspace 1 18 18;
  ran_r2 : r2 L = fill_loop 11 (r2_window (X L) (Y L) 8) (Np.zeros 11);
  ran_cutoff1 : Np.argmax (r2 L) = Ok (cutoff1 L);
  ran_cutoff2 : cutoff2 L = (cutoff1 L + 8)%nat;
  ran_IndConcS : IndConcS L = Np.slice (cutoff1 L) (cutoff2 L) (IndConca L);
  ran_pointphS : pointphS L = Np.slice (cutoff1 L) (cutoff2 L) (Y L);
  ran_slope :
    slope L =
      (Np.sum (Np.zipWith Rmult (pointphS L) (IndConcS L))
       - (Np.sum (IndConcS L) * Np.sum (pointphS L)) / INR 8)
      / (Np.sum (map (fun x => x ^ 2) (IndConcS L))
         - (Np.sum (IndConcS L) * Np.sum (IndConcS L)) / INR 8);
  ran_ph : ph L = Np.mean (pointphS L) - slope L * Np.mean (IndConcS L)
}.


(** Peels the binds of a hypothesis [H : ... = Ok _] one by one. *)
Ltac bind_inv H :=
  repeat (cbv zeta in H;
          match type of H with
          | bind ?m ?k = Ok _ =>
              let a := fresh "a" in
              let E := fresh "E" in
              destruct m as [a|] eqn:E; [|discriminate H];
              change (bind (Ok a) k) with (k a) in H; cbv beta in H
          end).


(** *** Sample inputs *)

(** The reference cycle of the BlankEstimator test of the specification. *)
Definition spec_ref : list R :=
  [2100; 1894; 2080; 1910; 2093; 1883; 2073; 1899;
   2100; 1900; 2085; 1895; 2090; 1898; 2078; 1901].

(** The same cycle with a dead first reference reading ([ref[0] = 0]) and
    a negative signal ([ref[3] < 0]). *)
Definition dead_ref : list R :=
  [0; 1894; 2080; -1910; 2093; 1883; 2073; 1899;
   2100; 1900; 2085; 1895; 2090; 1898; 2078; 1901].

(** A reference cycle with both blanks equal to 1. *)
Definition lin_ref : list R := repeat 1 16.

(** A light cycle of 23 sets: the even sets read (10, 1, 100, 1), the odd
    ones (100, 1, 100, 1). *)
Definition lin_light : list R :=
  flat_map (fun i : nat => if Nat.even i then [10; 1; 100; 1]
                           else [100; 1; 100; 1])
           (seq 0 23).

(** A light cycle whose entries are 0, 1, ..., 91. *)
Definition ramp_light : list R := map INR (seq 0 92).


(** A batch of two well-formed records whose vector of [ea434]
    coefficients has one entry only. *)
Definition short_batch : phwater_args :=
  ManyRecords [lin_ref; lin_ref] [lin_light; lin_light]
              [24.788; 24.788] [1] [0; 0] [0; 0] [1; 1] None.

(** ** The thermistor conversion: [ph_thermistor] *)

(** Lines 58-69, for one reading ([np.log] is the natural logarithm; on an
    array numpy applies the same arithmetic entry by entry). *)
Definition ph_thermistor (traw : R) : R :=
  let Rt := (traw / (4096 - traw)) * 17400 in
  let InvT := 0.0010183 + 0.000241 * ln Rt + 0.00000015 * ln Rt ^ 3 in
  let TempK := 1 / InvT in
  let therm := TempK - 273.15 in
  therm.

(** ** The window search and the final regression over float64
       (lines 202-257) *)

(** From line 205 on the result depends on how float64 rounds and on NaN,
    [np.argmax] most of all: a second embedding of these lines keeps the
    arithmetic abstract.  Its inputs are the two arrays [IndConc] and
    [pointph] of line 199 and 200; none of its operations raises, numpy
    warns and goes on with inf or nan. *)

Module Fl.

(** float64 as the code uses it here: the conversion of a Python int,
    the four operations, [** 2] on the entries of an array ([fsquare]) and
    on a float64 scalar ([fpow2]), [np.sum] of a one dimensional array
    (numpy fixes the order of the additions), [<=] and [np.isnan]. *)
Record arith : Type := mkArith {
  num : Type;
  fnat : nat -> num;
  fadd : num -> num -> num;
  fsub : num -> num -> num;
  fmul : num -> num -> num;
  fdiv : num -> num -> num;
  fsquare : num -> num;
  fpow2 : num -> num;
  fsum : list num -> num;
  fleb : num -> num -> bool;
  fisnan : num -> bool
}.

Section Arith.

Variable A : arith.

(** [a[k] = x], for [k] within bounds. *)
Fixpoint setitem (a : list (num A)) (k : nat) (x : num A) : list (num A) :=
  match a, k with
  | [], _ => []
  | _ :: t, O => x :: t
  | h :: t, S k' => h :: setitem t k' x
  end.

Definition zeros (n : nat) : list (num A) := repeat (fnat A 0) n.

(** [np.mean]: the sum divided by the number of items. *)
Definition mean (a : list (num A)) : num A :=
  fdiv A (fsum A a) (fnat A (length a)).

(** [y[-1] = stop]. *)
Fixpoint set_last (y : list (num A)) (stop : num A) : list (num A) :=
  match y with
  | [] => []
  | [_] => [stop]
  | h :: t => h :: set_last t stop
  end.

(** [np.linspace(start, stop, num)]:
    [y = arange(0, num) * step + start] with
    [step = (stop - start) / (num - 1)], then [y[-1] = stop]. *)
Definition linspace (start stop : num A) (n : nat) : list (num A) :=
  match n with
  | O => []
  | S O => [start]
  | _ =>
      let step := fdiv A (fsub A stop start) (fnat A (n - 1)) in
      set_last (map (fun k => fadd A (fmul A (fnat A k) step) start)
                    (seq 0 n))
               stop
  end.

(** [np.argmax] on float64: a NaN counts as the greatest value and the
    first one ends the search; otherwise an entry replaces the running
    maximum [mp] when [not (entry <= mp)]. *)
Fixpoint argmax_from (mp : num A) (max_ind i : nat) (ip : list (num A))
  : nat :=
  match ip with
  | [] => max_ind
  | x :: rest =>
      if negb (fleb A x mp)
      then (if fisnan A x then i else argmax_from x i (S i) rest)
      else argmax_from mp max_ind (S i) rest
  end.

Definition argmax (a : list (num A)) : result nat :=
  match a with
  | [] => Raise ValueError
  | x :: rest => if fisnan A x then Ok 0%nat else Ok (argmax_from x 0 1 rest)
  end.

(** The body of the window loop, lines 220-232: the value stored in
    [r2[i]]. *)
Definition r2_window (X Y : list (num A)) (count i : nat) : num A :=
  let sumx := fsum A (Np.slice i (i + count) X) in
  let sumy := fsum A (Np.slice i (i + count) Y) in
  let sumxy := fsum A (Np.zipWith (fmul A) (Np.slice i (i + count) X)
                                           (Np.slice i (i + count) Y)) in
  let sumx2 := fsum A (map (fsquare A) (Np.slice i (i + count) X)) in
  let sumy2 := fsum A (map (fsquare A) (Np.slice i (i + count) Y)) in
  let avgx := mean (Np.slice i (i + count) X) in
  let avgy := mean (Np.slice i (i + count) Y) in
  let sumxx := fmul A sumx sumx in
  let sumyy := fmul A sumy sumy in
  let ssxy := fsub A sumxy (fdiv A (fmul A sumx sumy) (fnat A count)) in
  let ssx := fsub A sumx2 (fdiv A sumxx (fnat A count)) in
  let ssy := fsub A sumy2 (fdiv A sumyy (fnat A count)) in
  fdiv A (fpow2 A ssxy) (fmul A ssx ssy).

(** [for i in range(n): a[i] = f(i)]. *)
Definition fill_loop (n : nat) (f : nat -> num A) (a : list (num A))
  : list (num A) :=
  fold_left (fun acc i => setitem acc i (f i)) (seq 0 n) a.

(** The local variables of lines 205-256. *)
Record tail : Type := mkTail {
  IndConca : list (num A);
  Y : list (num A);
  X : list (num A);
  r2 : list (num A);
  cutoff1 : nat;
  cutoff2 : nat;
  IndConcS : list (num A);
  pointphS : list (num A);
  sumx : num A;
  sumy : num A;
  sumxy : num A;
  sumx2 : num A;
  xbar : num A;
  ybar : num A;
  ssxy : num A;
  ssx : num A;
  slope : num A;
  ph : num A
}.

(** Lines 205-257, from [IndConc] and [pointph] to [ph]. *)
Definition ph_tail (IndConc pointph : list (num A)) : result tail :=
  (* Initial pH Calcs: the most linear region, skipping the first 5 points *)
  let IndConca := Np.slice_from 5 IndConc in
  let Y := Np.slice_from 5 pointph in
  let X := linspace (fnat A 1) (fnat A 18) 18 in
  let step := 7%nat in
  let count := (step + 1)%nat in
  let npts := (length X - step)%nat in
  let r2 := fill_loop npts (r2_window X Y count) (zeros npts) in
  (* Range of seawater points to use *)
  cutoff1 <- argmax r2 ;;
  let cutoff2 := (cutoff1 + count)%nat in
  (* Indicator and pH range limited to best points *)
  let IndConcS := Np.slice cutoff1 cutoff2 IndConca in
  let pointphS := Np.slice cutoff1 cutoff2 Y in
  (* Final pH Calcs *)
  let sumx := fsum A IndConcS in
  let sumy := fsum A pointphS in
  let sumxy := fsum A (Np.zipWith (fmul A) pointphS IndConcS) in
  let sumx2 := fsum A (map (fsquare A) IndConcS) in
  let sumy2 := fsum A (map (fsquare A) pointphS) in
  let xbar := mean IndConcS in
  let ybar := mean pointphS in
  let sumxx := fmul A sumx sumx in
  let sumyy := fmul A sumy sumy in
  let ssxy := fsub A sumxy (fdiv A (fmul A sumx sumy) (fnat A count)) in
  let ssx := fsub A sumx2 (fdiv A sumxx (fnat A count)) in
  let ssy := fsub A sumy2 (fdiv A sumyy (fnat A count)) in
  let slope := fdiv A ssxy ssx in
  let ph := fsub A ybar (fmul A slope xbar) in
  Ok {| IndConca := IndConca; Y := Y; X := X; r2 := r2;
        cutoff1 := cutoff1; cutoff2 := cutoff2;
        IndConcS := IndConcS; pointphS := pointphS;
        sumx := sumx; sumy := sumy; sumxy := sumxy; sumx2 := sumx2;
        xbar := xbar; ybar := ybar; ssxy := ssxy; ssx := ssx;
        slope := slope; ph := ph |}.

(** What the order [<=] and [np.isnan] of float64 satisfy (IEEE 754): [<=]
    is transitive, total on the values that are not NaN, and false of a
    NaN. *)
Record ieee_order : Prop := mkOrder {
  fleb_trans : forall x y z,
    fleb A x y = true -> fleb A y z = true -> fleb A x z = true;
  fleb_total : forall x y,
    fisnan A x = false -> fisnan A y = false ->
    fleb A x y = true \/ fleb A y x = true;
  fleb_nan : forall x y, fisnan A x = true -> fleb A x y = false
}.


End Arith.

(** *** binary64 *)

(** IEEE 754 binary64 with the primitive operations of Rocq, round to
    nearest even as numpy's.  [** 2] is the rounded product [x * x], on an
    array (numpy's square) and on the scalar [ssxy] (C's [pow(x, 2.0)]);
    [np.sum] adds from left to right in [binary64] and in pairs in
    [binary64_pairwise], the two orders numpy has used for a contiguous
    array of 8 entries. *)
Definition float_of_nat (n : nat) : PrimFloat.float :=
  PrimFloat.of_uint63 (Uint63.of_nat n).

Definition binary64 : arith :=
  {| num := PrimFloat.float;
     fnat := float_of_nat;
     fadd := PrimFloat.add;
     fsub := PrimFloat.sub;
     fmul := PrimFloat.mul;
     fdiv := PrimFloat.div;
     fsquare := fun x => PrimFloat.mul x x;
     fpow2 := fun x => PrimFloat.mul x x;
     fsum := fun a => fold_left PrimFloat.add a PrimFloat.zero;
     fleb := PrimFloat.leb;
     fisnan := PrimFloat.is_nan |}.

Fixpoint pairwise_sum (fuel : nat) (a : list PrimFloat.float)
  : PrimFloat.float :=
  match fuel, a with
  | _, [] => PrimFloat.zero
  | _, [x] => x
  | O, _ => fold_left PrimFloat.add a PrimFloat.zero
  | S fuel', _ =>
      let h := Nat.div2 (length a) in
      PrimFloat.add (pairwise_sum fuel' (firstn h a))
                    (pairwise_sum fuel' (skipn h a))
  end.

Definition binary64_pairwise : arith :=
  {| num := PrimFloat.float;
     fnat := float_of_nat;
     fadd := PrimFloat.add;
     fsub := PrimFloat.sub;
     fmul := PrimFloat.mul;
     fdiv := PrimFloat.div;
     fsquare := fun x => PrimFloat.mul x x;
     fpow2 := fun x => PrimFloat.mul x x;
     fsum := fun a => pairwise_sum (length a) a;
     fleb := PrimFloat.leb;
     fisnan := PrimFloat.is_nan |}.

(** *** Exact arithmetic *)

Definition exact : arith :=
  {| num := R;
     fnat := INR;
     fadd := Rplus;
     fsub := Rminus;
     fmul := Rmult;
     fdiv := Rdiv;
     fsquare := fun x => x ^ 2;
     fpow2 := fun x => x ^ 2;
     fsum := Np.sum;
     fleb := fun x y => if Rle_dec x y then true else false;
     fisnan := fun _ => false |}.

(** *** The final regression without rounding *)

Section Unrounded.

Variable A : arith.

(** [repr x r]: the value [x] of the arithmetic stands for the real number
    [r] (for float64: [x] is finite and [r] is its value). *)
Variable repr : num A -> R -> Prop.






End Unrounded.

(** *** The real number a binary64 value stands for *)






(** *** Sample inputs of lines 205-257 *)

Section Samples.

Import PrimFloat.






End Samples.

End Fl.

(** ** Proof automation for binary64 *)

(** Case analysis on the comparisons of a specification float. *)
Ltac sf_cases :=
  repeat match goal with
         | |- context [Pos.compare_cont Eq ?a ?b] =>
             change (Pos.compare_cont Eq a b) with (Pos.compare a b)
         | H : context [Pos.compare_cont Eq ?a ?b] |- _ =>
             change (Pos.compare_cont Eq a b) with (Pos.compare a b) in H
         end;
  repeat match goal with
         | |- context [Z.compare ?a ?b] => destruct (Z.compare_spec a b)
         | H : context [Z.compare ?a ?b] |- _ => destruct (Z.compare_spec a b)
         | |- context [Pos.compare ?a ?b] => destruct (Pos.compare_spec a b)
         | H : context [Pos.compare ?a ?b] |- _ =>
             destruct (Pos.compare_spec a b)
         end;
  cbn [CompOpp] in *; try reflexivity; try discriminate; try lia.





(** * Properties *)

(** ** The error monad *)

Lemma bind_Ok (A B : Type) (a : A) (k : A -> result B) : bind (Ok a) k = k a.
Proof. reflexivity. Qed.

(** ** Lists and numpy operations *)

Lemma getitem_Ok (a : list R) (k : nat) (x : R) :
  Np.getitem a k = Ok x -> (k < length a)%nat /\ x = nth k a 0.
Proof.
  unfold Np.getitem. destruct (nth_error a k) as [y|] eqn:E; intros H.
  - injection H as <-. split.
    + apply nth_error_Some. congruence.
    + symmetry. apply nth_error_nth. exact E.
  - discriminate H.
Qed.

Lemma getitem_nth (a : list R) (k : nat) :
  (k < length a)%nat -> Np.getitem a k = Ok (nth k a 0).
Proof.
  intros H. unfold Np.getitem.
  rewrite (nth_error_nth' a 0 H). reflexivity.
Qed.

Lemma getitem_Raise (a : list R) (k : nat) (e : exn) :
  Np.getitem a k = Raise e -> (length a <= k)%nat /\ e = IndexError.
Proof.
  unfold Np.getitem. destruct (nth_error a k) as [y|] eqn:E; intros H.
  - discriminate H.
  - injection H as <-. split; [apply nth_error_None; exact E | reflexivity].
Qed.

Lemma getrow_nth (a : list (list R)) (k : nat) :
  (k < length a)%nat -> Np.getrow a k = Ok (nth k a []).
Proof.
  intros H. unfold Np.getrow.
  rewrite (nth_error_nth' a [] H). reflexivity.
Qed.

Lemma getrow_Ok (a : list (list R)) (k : nat) (r : list R) :
  Np.getrow a k = Ok r -> (k < length a)%nat /\ r = nth k a [].
Proof.
  unfold Np.getrow. destruct (nth_error a k) as [y|] eqn:E; intros H.
  - injection H as <-. split.
    + apply nth_error_Some. congruence.
    + symmetry. apply nth_error_nth. exact E.
  - discriminate H.
Qed.

Lemma reshape_Ok (a : list R) (rows cols : nat) (m : list (list R)) :
  Np.reshape a rows cols = Ok m ->
  length a = (rows * cols)%nat /\ m = Np.chunks cols rows a.
Proof.
  unfold Np.reshape. destruct (Nat.eqb_spec (length a) (rows * cols)); intros H.
  - injection H as <-. split; [assumption | reflexivity].
  - discriminate H.
Qed.

Lemma reshape_size (a : list R) (rows cols : nat) :
  length a = (rows * cols)%nat ->
  Np.reshape a rows cols = Ok (Np.chunks cols rows a).
Proof.
  intros H. unfold Np.reshape. rewrite H, Nat.eqb_refl. reflexivity.
Qed.

Lemma reshape_Raise (a : list R) (rows cols : nat) :
  length a <> (rows * cols)%nat -> Np.reshape a rows cols = Raise ValueError.
Proof.
  intros H. unfold Np.reshape.
  destruct (Nat.eqb_spec (length a) (rows * cols)); [contradiction | reflexivity].
Qed.

Lemma chunks_length (cols rows : nat) (a : list R) :
  length (Np.chunks cols rows a) = rows.
Proof.
  revert a. induction rows as [|r IH]; intros a; simpl; [reflexivity|].
  rewrite IH. reflexivity.
Qed.

Lemma chunks_nth (cols rows : nat) (a : list R) (i : nat) :
  (i < rows)%nat ->
  nth i (Np.chunks cols rows a) [] = firstn cols (skipn (i * cols) a).
Proof.
  revert a i. induction rows as [|r IH]; intros a i Hi; [lia|].
  destruct i as [|i]; simpl.
  - reflexivity.
  - rewrite IH by lia. rewrite skipn_skipn.
    replace (i * cols + cols)%nat with (cols + i * cols)%nat by lia.
    reflexivity.
Qed.

Lemma column_length (k : nat) (m : list (list R)) :
  length (Np.column k m) = length m.
Proof. unfold Np.column. apply length_map. Qed.

(** Entry [i] of column [k] of the row-major reshape is entry [cols*i + k]
    of the flat array. *)
Lemma column_chunks_nth (cols rows k i : nat) (a : list R) :
  (i < rows)%nat -> (k < cols)%nat ->
  nth i (Np.column k (Np.chunks cols rows a)) 0 = nth (cols * i + k) a 0.
Proof.
  intros Hi Hk. unfold Np.column.
  rewrite (nth_indep _ 0 (nth k [] 0)) by (rewrite length_map, chunks_length; exact Hi).
  rewrite (map_nth (fun row => nth k row 0)).
  rewrite chunks_nth by exact Hi.
  rewrite nth_firstn.
  destruct (Nat.ltb_spec k cols); [|lia].
  rewrite nth_skipn. f_equal. lia.
Qed.

Lemma zipWith_length (A B D : Type) (f : A -> B -> D) (a : list A) (b : list B) :
  length (Np.zipWith f a b) = Nat.min (length a) (length b).
Proof.
  revert b. induction a as [|x a IH]; intros [|y b]; simpl; auto.
Qed.

Lemma zipWith_nth (A B D : Type) (f : A -> B -> D) (a : list A) (b : list B)
      (i : nat) (da : A) (db : B) (dd : D) :
  (i < length a)%nat -> (i < length b)%nat ->
  nth i (Np.zipWith f a b) dd = f (nth i a da) (nth i b db).
Proof.
  revert b i. induction a as [|x a IH]; intros [|y b] i Ha Hb; simpl in *; try lia.
  destruct i as [|i]; [reflexivity|]. apply IH; lia.
Qed.

Lemma map_nth_lt (A B : Type) (f : A -> B) (a : list A) (i : nat) (da : A) (db : B) :
  (i < length a)%nat -> nth i (map f a) db = f (nth i a da).
Proof.
  intros H. rewrite (nth_indep _ db (f da)) by (rewrite length_map; exact H).
  apply map_nth.
Qed.

Lemma slice_length (A : Type) (i j : nat) (a : list A) :
  (j <= length a)%nat -> length (Np.slice i j a) = (j - i)%nat.
Proof.
  intros H. unfold Np.slice. rewrite length_firstn, length_skipn. lia.
Qed.

Lemma slice_nth (A : Type) (i j k : nat) (a : list A) (d : A) :
  (k < j - i)%nat -> nth k (Np.slice i j a) d = nth (i + k) a d.
Proof.
  intros H. unfold Np.slice. rewrite nth_firstn.
  destruct (Nat.ltb_spec k (j - i)); [|lia].
  apply nth_skipn.
Qed.

Lemma slice_from_nth (A : Type) (i k : nat) (a : list A) (d : A) :
  nth k (Np.slice_from i a) d = nth (i + k) a d.
Proof. unfold Np.slice_from. apply nth_skipn. Qed.

Lemma slice_from_length (A : Type) (i : nat) (a : list A) :
  length (Np.slice_from i a) = (length a - i)%nat.
Proof. unfold Np.slice_from. apply length_skipn. Qed.

Lemma setitem_length (a : list R) (k : nat) (x : R) :
  length (Np.setitem a k x) = length a.
Proof.
  revert k. induction a as [|h t IH]; intros [|k]; simpl; auto.
Qed.

Lemma setitem_nth_same (a : list R) (k : nat) (x : R) :
  (k < length a)%nat -> nth k (Np.setitem a k x) 0 = x.
Proof.
  revert k. induction a as [|h t IH]; intros [|k] H; simpl in *; try lia.
  - reflexivity.
  - apply IH. lia.
Qed.

Lemma setitem_nth_other (a : list R) (k j : nat) (x : R) :
  j <> k -> nth j (Np.setitem a k x) 0 = nth j a 0.
Proof.
  revert k j. induction a as [|h t IH]; intros [|k] [|j] H; simpl; try reflexivity.
  - contradiction.
  - apply IH. congruence.
Qed.

Lemma ph_phwater_locals_ran ref light therm ea434 eb434 ea578 eb578 psal L :
  ph_phwater_locals ref light therm ea434 eb434 ea578 eb578 psal = Ok L ->
  ran ref light therm ea434 eb434 ea578 eb578 psal L.
Proof.
  intros H. unfold ph_phwater_locals in H.
  bind_inv H.
  injection H as <-.
  match goal with
  | E : blanks _ = Ok _ |- _ =>
      unfold blanks in E; bind_inv E; injection E as <-
  end.
  repeat match goal with
         | E : Np.getitem _ _ = Ok _ |- _ =>
             apply getitem_Ok in E; destruct E as [? ->]
         end.
  match goal with
  | E : Np.reshape _ _ _ = Ok _ |- _ =>
      apply reshape_Ok in E; destruct E as [Hl ->]
  end.
  constructor; try reflexivity; try assumption.
  eexists. split; [eassumption | reflexivity].
Qed.

Lemma fill_loop_length (n : nat) (f : nat -> R) (a : list R) :
  length (fill_loop n f a) = length a.
Proof.
  unfold fill_loop. generalize (seq 0 n). intros idx. revert a.
  induction idx as [|i idx IH]; intros a; simpl; [reflexivity|].
  rewrite IH. apply setitem_length.
Qed.

Lemma fill_loop_zeros_length (n : nat) (f : nat -> R) :
  length (fill_loop n f (Np.zeros n)) = n.
Proof. rewrite fill_loop_length. unfold Np.zeros. apply repeat_length. Qed.

Lemma linspace_length (start stop : R) (num : nat) :
  length (Np.linspace start stop num) = num.
Proof. unfold Np.linspace. rewrite length_map. apply length_seq. Qed.

Lemma argmax_nonempty (a : list R) :
  a <> [] -> exists k, Np.argmax a = Ok k.
Proof.
  destruct a as [|x t]; [congruence|]. intros _. eexists. reflexivity.
Qed.

Lemma add_log_scalar (p : R) (lg : logvec) :
  exists s, Np.add_log (Scalar p) lg = Ok s.
Proof. destruct lg; eexists; reflexivity. Qed.

(** Adding a one-element array broadcasts it: the same sum as with the
    scalar. *)
Lemma add_log_singleton (p : R) (lg : logvec) :
  Np.add_log (Arr [p]) lg = Np.add_log (Scalar p) lg.
Proof. destruct lg; reflexivity. Qed.

(** A run completes as soon as the reference cycle has its 16 entries, the
    light cycle its 92, and the salinity is a scalar or broadcasts. *)
Lemma ph_phwater_locals_total ref light therm ea434 eb434 ea578 eb578 psal :
  (16 <= length ref)%nat -> length light = 92%nat ->
  (exists s, psal = Scalar s \/ psal = Arr [s]) ->
  exists L, ph_phwater_locals ref light therm ea434 eb434 ea578 eb578 psal = Ok L.
Proof.
  intros Href Hlight [s Hs]. unfold ph_phwater_locals, blanks.
  rewrite !getitem_nth by lia. rewrite !bind_Ok.
  rewrite (reshape_size light 23 4 Hlight). rewrite bind_Ok. cbv zeta.
  match goal with
  | |- context [Np.add_log ?p ?lg] =>
      assert (Hadd : exists v, Np.add_log p lg = Ok v)
  end.
  { destruct Hs as [-> | ->]; simpl Np.npmap.
    - apply add_log_scalar.
    - rewrite add_log_singleton. apply add_log_scalar. }
  destruct Hadd as [v ->]. rewrite bind_Ok.
  match goal with
  | |- context [Np.argmax ?r] =>
      destruct (@argmax_nonempty r) as [k ->]
  end.
  - rewrite linspace_length. intros Hnil.
    apply (f_equal (@length R)) in Hnil.
    rewrite fill_loop_zeros_length in Hnil. discriminate Hnil.
  - rewrite bind_Ok. eexists. reflexivity.
Qed.

(** ** Shapes of the locals of a completed run *)

Section Run.

Variables (ref light : list R) (therm ea434 eb434 ea578 eb578 : R).
Variables (psal : npval) (L : locals).
Hypothesis HL : ran ref light therm ea434 eb434 ea578 eb578 psal L.

Lemma len_ref434 : length (ref434 L) = 23%nat.
Proof. rewrite (ran_ref434 HL), column_length. apply chunks_length. Qed.

Lemma len_int434 : length (int434 L) = 23%nat.
Proof. rewrite (ran_int434 HL), column_length. apply chunks_length. Qed.

Lemma len_ref578 : length (ref578 L) = 23%nat.
Proof. rewrite (ran_ref578 HL), column_length. apply chunks_length. Qed.

Lemma len_int578 : length (int578 L) = 23%nat.
Proof. rewrite (ran_int578 HL), column_length. apply chunks_length. Qed.

Lemma len_A434 : length (A434 L) = 23%nat.
Proof.
  rewrite (ran_A434 HL), length_map, zipWith_length, len_int434, len_ref434.
  reflexivity.
Qed.

Lemma len_A578 : length (A578 L) = 23%nat.
Proof.
  rewrite (ran_A578 HL), length_map, zipWith_length, len_int578, len_ref578.
  reflexivity.
Qed.

Lemma len_abs434 : length (abs434 L) = 23%nat.
Proof. rewrite (ran_abs434 HL), length_map. apply len_A434. Qed.

Lemma len_abs578 : length (abs578 L) = 23%nat.
Proof. rewrite (ran_abs578 HL), length_map. apply len_A578. Qed.

Lemma len_R : length (R_ L) = 23%nat.
Proof.
  rewrite (ran_R HL), zipWith_length, !length_map, len_A434, len_A578.
  reflexivity.
Qed.

Lemma len_V1 : length (V1 L) = 23%nat.
Proof. rewrite (ran_V1 HL), length_map. apply len_R. Qed.

Lemma len_V2 : length (V2 L) = 23%nat.
Proof. rewrite (ran_V2 HL), length_map. apply len_R. Qed.

Lemma len_HI : length (HI L) = 23%nat.
Proof.
  rewrite (ran_HI HL), length_map, zipWith_length, !length_map.
  rewrite len_abs434, len_abs578. reflexivity.
Qed.

Lemma len_I : length (I_ L) = 23%nat.
Proof.
  rewrite (ran_I HL), length_map, zipWith_length, !length_map.
  rewrite len_abs434, len_abs578. reflexivity.
Qed.

Lemma len_IndConc : length (IndConc L) = 23%nat.
Proof.
  rewrite (ran_IndConc HL), zipWith_length, len_HI, len_I. reflexivity.
Qed.

(** The entries of the light columns, in terms of the flat light cycle. *)
Lemma nth_ref434 (i : nat) :
  (i < 23)%nat -> nth i (ref434 L) 0 = nth (4 * i) light 0.
Proof.
  intros Hi. rewrite (ran_ref434 HL), column_chunks_nth by lia.
  f_equal. lia.
Qed.

Lemma nth_int434 (i : nat) :
  (i < 23)%nat -> nth i (int434 L) 0 = nth (4 * i + 1) light 0.
Proof. intros Hi. rewrite (ran_int434 HL). apply column_chunks_nth; lia. Qed.

Lemma nth_ref578 (i : nat) :
  (i < 23)%nat -> nth i (ref578 L) 0 = nth (4 * i + 2) light 0.
Proof. intros Hi. rewrite (ran_ref578 HL). apply column_chunks_nth; lia. Qed.

Lemma nth_int578 (i : nat) :
  (i < 23)%nat -> nth i (int578 L) 0 = nth (4 * i + 3) light 0.
Proof. intros Hi. rewrite (ran_int578 HL). apply column_chunks_nth; lia. Qed.

Lemma nth_abs434 (i : nat) :
  (i < 23)%nat ->
  nth i (abs434 L) 0 =
    - Np.log10 (nth (4 * i + 1) light 0 / nth (4 * i) light 0)
    - - Np.log10 (blank434 L).
Proof.
  intros Hi. rewrite (ran_abs434 HL).
  rewrite (map_nth_lt _ _ 0) by (rewrite len_A434; exact Hi).
  rewrite (ran_A434 HL).
  rewrite (map_nth_lt _ _ 0)
    by (rewrite zipWith_length, len_int434, len_ref434; exact Hi).
  rewrite (zipWith_nth _ _ _ 0 0)
    by (rewrite ?len_int434, ?len_ref434; exact Hi).
  rewrite nth_int434, nth_ref434 by exact Hi.
  rewrite (ran_A434blank HL). reflexivity.
Qed.

Lemma nth_abs578 (i : nat) :
  (i < 23)%nat ->
  nth i (abs578 L) 0 =
    - Np.log10 (nth (4 * i + 3) light 0 / nth (4 * i + 2) light 0)
    - - Np.log10 (blank578 L).
Proof.
  intros Hi. rewrite (ran_abs578 HL).
  rewrite (map_nth_lt _ _ 0) by (rewrite len_A578; exact Hi).
  rewrite (ran_A578 HL).
  rewrite (map_nth_lt _ _ 0)
    by (rewrite zipWith_length, len_int578, len_ref578; exact Hi).
  rewrite (zipWith_nth _ _ _ 0 0)
    by (rewrite ?len_int578, ?len_ref578; exact Hi).
  rewrite nth_int578, nth_ref578 by exact Hi.
  rewrite (ran_A578blank HL). reflexivity.
Qed.

(** [R] is the ratio of the blank-corrected absorbances. *)
Lemma nth_R (i : nat) :
  (i < 23)%nat -> nth i (R_ L) 0 = nth i (abs578 L) 0 / nth i (abs434 L) 0.
Proof.
  intros Hi. rewrite (ran_R HL).
  rewrite (zipWith_nth _ _ _ 0 0)
    by (rewrite length_map, ?len_A434, ?len_A578; exact Hi).
  rewrite (ran_abs578 HL), (ran_abs434 HL). reflexivity.
Qed.

Lemma nth_V1 (i : nat) :
  (i < 23)%nat -> nth i (V1 L) 0 = nth i (R_ L) 0 - e1 L.
Proof.
  intros Hi. rewrite (ran_V1 HL).
  apply (map_nth_lt (fun r => r - e1 L)). rewrite len_R. exact Hi.
Qed.

Lemma nth_V2 (i : nat) :
  (i < 23)%nat -> nth i (V2 L) 0 = e2 L - nth i (R_ L) 0 * e3 L.
Proof.
  intros Hi. rewrite (ran_V2 HL).
  apply (map_nth_lt (fun r => e2 L - r * e3 L)). rewrite len_R. exact Hi.
Qed.

Lemma nth_HI (i : nat) :
  (i < 23)%nat ->
  nth i (HI L) 0 =
    (nth i (abs434 L) 0 * eb578' L - nth i (abs578 L) 0 * eb434' L)
    / (ea434' L * eb578' L - eb434' L * ea578' L).
Proof.
  intros Hi. rewrite (ran_HI HL).
  rewrite (map_nth_lt _ _ 0)
    by (rewrite zipWith_length, !length_map, len_abs434, len_abs578; exact Hi).
  rewrite (zipWith_nth _ _ _ 0 0)
    by (rewrite length_map, ?len_abs434, ?len_abs578; exact Hi).
  rewrite !(map_nth_lt _ _ 0) by (rewrite ?len_abs434, ?len_abs578; exact Hi).
  reflexivity.
Qed.

Lemma nth_I (i : nat) :
  (i < 23)%nat ->
  nth i (I_ L) 0 =
    (nth i (abs578 L) 0 * ea434' L - nth i (abs434 L) 0 * ea578' L)
    / (ea434' L * eb578' L - eb434' L * ea578' L).
Proof.
  intros Hi. rewrite (ran_I HL).
  rewrite (map_nth_lt _ _ 0)
    by (rewrite zipWith_length, !length_map, len_abs434, len_abs578; exact Hi).
  rewrite (zipWith_nth _ _ _ 0 0)
    by (rewrite length_map, ?len_abs434, ?len_abs578; exact Hi).
  rewrite !(map_nth_lt _ _ 0) by (rewrite ?len_abs434, ?len_abs578; exact Hi).
  reflexivity.
Qed.

Lemma nth_IndConc (i : nat) :
  (i < 23)%nat -> nth i (IndConc L) 0 = nth i (HI L) 0 + nth i (I_ L) 0.
Proof.
  intros Hi. rewrite (ran_IndConc HL).
  apply zipWith_nth; rewrite ?len_HI, ?len_I; exact Hi.
Qed.

End Run.

(** ** BlankEstimator (lines 141-158) *)

Lemma mean4 (a b c d : R) : Np.mean [a; b; c; d] = (a + b + c + d) / 4.
Proof. unfold Np.mean, Np.sum. simpl. lra. Qed.

Lemma blanks_16 (ref : list R) :
  (16 <= length ref)%nat ->
  blanks ref =
    Ok (Np.mean [nth 1 ref 0 / nth 0 ref 0; nth 5 ref 0 / nth 4 ref 0;
                 nth 9 ref 0 / nth 8 ref 0; nth 13 ref 0 / nth 12 ref 0],
        Np.mean [nth 3 ref 0 / nth 2 ref 0; nth 7 ref 0 / nth 6 ref 0;
                 nth 11 ref 0 / nth 10 ref 0; nth 15 ref 0 / nth 14 ref 0]).
Proof.
  intros H. unfold blanks.
  rewrite !getitem_nth by lia. rewrite !bind_Ok. reflexivity.
Qed.

Lemma blanks_Raise (ref : list R) (e : exn) :
  blanks ref = Raise e -> (length ref < 16)%nat /\ e = IndexError.
Proof.
  intros H. destruct (Nat.lt_ge_cases (length ref) 16) as [Hlt|Hge].
  - split; [exact Hlt|].
    unfold blanks in H.
    repeat match type of H with
           | bind (Np.getitem ?a ?k) _ = Raise _ =>
               let E := fresh "E" in
               destruct (Np.getitem a k) eqn:E;
               [ rewrite bind_Ok in H; cbv zeta in H
               | apply getitem_Raise in E; destruct E as [_ E];
                 simpl in H; congruence ]
           end.
    discriminate H.
  - rewrite (blanks_16 ref Hge) in H. discriminate H.
Qed.

(** C5. For every 16-element reference cycle with nonzero denominators,
    [blank434] is the arithmetic mean of the four ratios ref[1]/ref[0],
    ref[5]/ref[4], ref[9]/ref[8], ref[13]/ref[12] and [blank578] that of
    ref[3]/ref[2], ref[7]/ref[6], ref[11]/ref[10], ref[15]/ref[14]; these are
    the values of the locals [blank434] and [blank578] of every completed
    run of [ph_phwater]. *)
Theorem blanks_are_means (ref : list R) :
  length ref = 16%nat ->
  (forall k, In k [0; 4; 8; 12; 2; 6; 10; 14]%nat -> nth k ref 0 <> 0) ->
  exists b434 b578 : R,
    blanks ref = Ok (b434, b578)
    /\ b434 = (nth 1 ref 0 / nth 0 ref 0 + nth 5 ref 0 / nth 4 ref 0
               + nth 9 ref 0 / nth 8 ref 0 + nth 13 ref 0 / nth 12 ref 0) / 4
    /\ b578 = (nth 3 ref 0 / nth 2 ref 0 + nth 7 ref 0 / nth 6 ref 0
               + nth 11 ref 0 / nth 10 ref 0 + nth 15 ref 0 / nth 14 ref 0) / 4
    /\ forall light therm ea434 eb434 ea578 eb578 psal L,
         ph_phwater_locals ref light therm ea434 eb434 ea578 eb578 psal = Ok L ->
         blank434 L = b434 /\ blank578 L = b578.
Proof.
  intros Hlen _.
  eexists. eexists. split; [apply blanks_16; lia|].
  split; [apply mean4|]. split; [apply mean4|].
  intros light therm ea434 eb434 ea578 eb578 psal L HL.
  apply ph_phwater_locals_ran in HL.
  split; [apply (ran_blank434 HL) | apply (ran_blank578 HL)].
Qed.

Lemma blanks_are_means_witness :
  exists b434 b578 : R,
    blanks spec_ref = Ok (b434, b578)
    /\ b434 = (1894 / 2100 + 1883 / 2093 + 1900 / 2100 + 1898 / 2090) / 4
    /\ b578 = (1910 / 2080 + 1899 / 2073 + 1895 / 2085 + 1901 / 2078) / 4.
Proof.
  destruct (blanks_are_means spec_ref) as [b434 [b578 [H1 [H2 [H3 _]]]]].
  - reflexivity.
  - intros k Hk. simpl in Hk.
    repeat (destruct Hk as [<- | Hk]; [simpl; lra|]). contradiction.
  - exists b434, b578. split; [exact H1|]. split; [exact H2 | exact H3].
Defined.

(** C8, as the code has it.  A reference cycle with a zero denominator and a
    negative ratio is not rejected: the blank step returns a pair of
    numbers (for the code: inf or nan, after a warning). *)
Lemma blanks_dead_ref_not_rejected :
  length dead_ref = 16%nat
  /\ nth 0 dead_ref 0 = 0
  /\ nth 3 dead_ref 0 / nth 2 dead_ref 0 <= 0
  /\ ~ (exists e, blanks dead_ref = Raise e).
Proof.
  split; [reflexivity|]. split; [reflexivity|]. split.
  - simpl. lra.
  - intros [e He]. apply blanks_Raise in He. destruct He as [Hlt _].
    simpl in Hlt. lia.
Qed.

(** C8, amended.  The blank step validates nothing: on every reference cycle
    with (at least) its 16 entries it returns the two means of the four
    ratios, [blank434] of ref[1]/ref[0], ref[5]/ref[4], ref[9]/ref[8],
    ref[13]/ref[12] and [blank578] of ref[3]/ref[2], ref[7]/ref[6],
    ref[11]/ref[10], ref[15]/ref[14], whatever the denominators and the
    signs of the ratios, and these are the locals [blank434] and [blank578]
    of every completed run; it raises no exception (the only one it can
    raise is the [IndexError] of a cycle that is too short). *)
Theorem blanks_never_invalid_measurement (ref : list R) :
  (16 <= length ref)%nat ->
  blanks ref =
    Ok (Np.mean [nth 1 ref 0 / nth 0 ref 0; nth 5 ref 0 / nth 4 ref 0;
                 nth 9 ref 0 / nth 8 ref 0; nth 13 ref 0 / nth 12 ref 0],
        Np.mean [nth 3 ref 0 / nth 2 ref 0; nth 7 ref 0 / nth 6 ref 0;
                 nth 11 ref 0 / nth 10 ref 0; nth 15 ref 0 / nth 14 ref 0])
  /\ Np.mean [nth 1 ref 0 / nth 0 ref 0; nth 5 ref 0 / nth 4 ref 0;
              nth 9 ref 0 / nth 8 ref 0; nth 13 ref 0 / nth 12 ref 0]
     = (nth 1 ref 0 / nth 0 ref 0 + nth 5 ref 0 / nth 4 ref 0
        + nth 9 ref 0 / nth 8 ref 0 + nth 13 ref 0 / nth 12 ref 0) / 4
  /\ Np.mean [nth 3 ref 0 / nth 2 ref 0; nth 7 ref 0 / nth 6 ref 0;
              nth 11 ref 0 / nth 10 ref 0; nth 15 ref 0 / nth 14 ref 0]
     = (nth 3 ref 0 / nth 2 ref 0 + nth 7 ref 0 / nth 6 ref 0
        + nth 11 ref 0 / nth 10 ref 0 + nth 15 ref 0 / nth 14 ref 0) / 4
  /\ (forall e, blanks ref <> Raise e)
  /\ forall light therm ea434 eb434 ea578 eb578 psal L,
       ph_phwater_locals ref light therm ea434 eb434 ea578 eb578 psal = Ok L ->
       blank434 L
         = Np.mean [nth 1 ref 0 / nth 0 ref 0; nth 5 ref 0 / nth 4 ref 0;
                    nth 9 ref 0 / nth 8 ref 0; nth 13 ref 0 / nth 12 ref 0]
       /\ blank578 L
         = Np.mean [nth 3 ref 0 / nth 2 ref 0; nth 7 ref 0 / nth 6 ref 0;
                    nth 11 ref 0 / nth 10 ref 0; nth 15 ref 0 / nth 14 ref 0].
Proof.
  intros H. split; [apply blanks_16; exact H|].
  split; [apply mean4|]. split; [apply mean4|]. split.
  - intros e He. rewrite (blanks_16 ref H) in He. discriminate He.
  - intros light therm ea434 eb434 ea578 eb578 psal L HL.
    apply ph_phwater_locals_ran in HL.
    split; [apply (ran_blank434 HL) | apply (ran_blank578 HL)].
Qed.

Lemma blanks_never_invalid_measurement_witness :
  blanks dead_ref =
    Ok (Np.mean [1894 / 0; 1883 / 2093; 1900 / 2100; 1898 / 2090],
        Np.mean [-1910 / 2080; 1899 / 2073; 1895 / 2085; 1901 / 2078])
  /\ forall e, blanks dead_ref <> Raise e.
Proof.
  destruct (blanks_never_invalid_measurement dead_ref) as [H1 [_ [_ [H2 _]]]].
  - simpl. lia.
  - split; [exact H1 | exact H2].
Defined.

(** ** PointwisePHEstimator and TemperatureCorrectedAbsorptivity
       (lines 180-200) *)

Lemma Cmod_tocomplex (a : R) : Np.Cmod (Np.tocomplex a) = Rabs a.
Proof.
  unfold Np.Cmod, Np.tocomplex. simpl.
  replace (a * a + 0 * 0) with (Rsqr a) by (unfold Rsqr; ring).
  apply sqrt_Rsqr_abs.
Qed.

(** The real part of the complex logarithm of a real number is the
    logarithm of its absolute value. *)
Lemma re_clog10_tocomplex (a : R) :
  fst (Np.clog10 (Np.tocomplex a)) = Np.log10 (Rabs a).
Proof. unfold Np.clog10. simpl. rewrite Cmod_tocomplex. reflexivity. Qed.

Lemma re_clog10_neg (a : R) :
  a < 0 -> fst (Np.clog10 (Np.tocomplex a)) = Np.log10 (- a).
Proof.
  intros H. rewrite re_clog10_tocomplex, Rabs_left by exact H. reflexivity.
Qed.

Lemma re_clog10_nonneg (a : R) :
  0 <= a -> fst (Np.clog10 (Np.tocomplex a)) = Np.log10 a.
Proof.
  intros H. rewrite re_clog10_tocomplex, Rabs_right by lra. reflexivity.
Qed.

Lemma re_Cadd_real (p : R) (z : C) : fst (Np.Cadd_real p z) = p + fst z.
Proof. reflexivity. Qed.

Lemma no_negative_entry (v : list R) :
  existsb (fun a => if Rlt_dec a 0 then true else false) v = false ->
  forall a, In a v -> 0 <= a.
Proof.
  intros H a Ha.
  destruct (Rlt_dec a 0) as [Hneg|Hpos] eqn:E; [|lra].
  exfalso.
  assert (Ht : existsb (fun a => if Rlt_dec a 0 then true else false) v = true).
  { apply existsb_exists. exists a. split; [exact Ha|]. rewrite E. reflexivity. }
  congruence.
Qed.

(** Whichever branch [scimath.log10] takes, the real part of [pKa + log10]
    is entry by entry the real part of the complex expression. *)
Lemma real_add_scimath_log10 (p : R) (v : list R) :
  exists s,
    Np.add_log (Scalar p) (Np.scimath_log10 v) = Ok s
    /\ Np.real s =
         map (fun a => fst (Np.Cadd_real p (Np.clog10 (Np.tocomplex a)))) v.
Proof.
  unfold Np.scimath_log10.
  destruct (existsb (fun a => if Rlt_dec a 0 then true else false) v) eqn:E.
  - eexists. split; [reflexivity|]. unfold Np.real.
    rewrite !map_map. reflexivity.
  - eexists. split; [reflexivity|]. unfold Np.real.
    rewrite map_map. apply map_ext_in. intros a Ha.
    rewrite re_Cadd_real.
    rewrite re_clog10_nonneg; [reflexivity|].
    apply (no_negative_entry v E a Ha).
Qed.

Section RunScalarSalinity.

Variables (ref light : list R) (therm ea434 eb434 ea578 eb578 : R).
Variables (psal : npval) (S_ : R) (L : locals).
Hypothesis HL : ran ref light therm ea434 eb434 ea578 eb578 psal L.
Hypothesis Hpsal : psal = Scalar S_ \/ psal = Arr [S_].

Lemma pointph_map :
  pointph L =
    map (fun a => fst (Np.Cadd_real
                         ((1245.69 / (therm + 273.15)) + 3.8275
                          + (0.0021 * (35 - S_)))
                         (Np.clog10 (Np.tocomplex a))))
        (Np.zipWith Rdiv (V1 L) (V2 L)).
Proof.
  destruct (ran_pointph HL) as [s [Hs ->]].
  rewrite (ran_pKa HL) in Hs.
  match goal with
  | |- _ = map (fun a => fst (Np.Cadd_real ?p _)) ?v =>
      destruct (real_add_scimath_log10 p v) as [s' [Hs' <-]];
      assert (Heq : Ok s = Ok s');
      [ rewrite <- Hs, <- Hs' | injection Heq as ->; reflexivity ]
  end.
  destruct Hpsal as [-> | ->]; simpl Np.npmap.
  - reflexivity.
  - apply add_log_singleton.
Qed.

Lemma len_pointph : length (pointph L) = 23%nat.
Proof.
  rewrite pointph_map, length_map, zipWith_length.
  rewrite (len_V1 HL), (len_V2 HL). reflexivity.
Qed.

Lemma nth_pointph (i : nat) :
  (i < 23)%nat ->
  nth i (pointph L) 0 =
    fst (Np.Cadd_real
           ((1245.69 / (therm + 273.15)) + 3.8275 + (0.0021 * (35 - S_)))
           (Np.clog10 (Np.tocomplex (nth i (V1 L) 0 / nth i (V2 L) 0)))).
Proof.
  intros Hi. rewrite pointph_map.
  rewrite (map_nth_lt _ _ 0)
    by (rewrite zipWith_length, (len_V1 HL), (len_V2 HL); exact Hi).
  rewrite (zipWith_nth _ _ _ 0 0)
    by (rewrite ?(len_V1 HL), ?(len_V2 HL); exact Hi).
  reflexivity.
Qed.

End RunScalarSalinity.

(** C1. For every record (reference cycle of 16, light cycle of 92, scalar
    salinity [S], also when the wrapper hands it over as a one-element
    array), the run completes and the candidate pH at point [i] < 23 is the
    real part of [pKa + log10((R_i - e1) / (e2 - R_i * e3))] with the
    logarithm taken over the complex numbers, so that for a negative
    argument it is [pKa + log10] of the absolute value; here
    [pKa = 1245.69/(T + 273.15) + 3.8275 + 0.0021 * (35 - S)], [R_i] is the
    ratio of the blank-corrected absorbance at 578 nm to that at 434 nm, and
    [e1], [e2], [e3] are the ratios ea578'/ea434', eb578'/ea434',
    eb434'/ea434' of the temperature-corrected absorptivities. *)
Theorem pointph_is_real_part_of_complex_log
        (ref light : list R) (therm ea434 eb434 ea578 eb578 : R)
        (psal : npval) (S_ : R) :
  (16 <= length ref)%nat -> length light = 92%nat ->
  psal = Scalar S_ \/ psal = Arr [S_] ->
  exists L,
    ph_phwater_locals ref light therm ea434 eb434 ea578 eb578 psal = Ok L
    /\ length (pointph L) = 23%nat
    /\ forall i, (i < 23)%nat ->
         let pKa_ := 1245.69 / (therm + 273.15) + 3.8275 + 0.0021 * (35 - S_) in
         let abs434_i :=
           - Np.log10 (nth (4 * i + 1) light 0 / nth (4 * i) light 0)
           - - Np.log10 (blank434 L) in
         let abs578_i :=
           - Np.log10 (nth (4 * i + 3) light 0 / nth (4 * i + 2) light 0)
           - - Np.log10 (blank578 L) in
         let R_i := abs578_i / abs434_i in
         let ea434_T := ea434 - 26 * (therm - 24.788) in
         let ea578_T := ea578 + (therm - 24.788) in
         let eb434_T := eb434 + 12 * (therm - 24.788) in
         let eb578_T := eb578 - 71 * (therm - 24.788) in
         let e1_ := ea578_T / ea434_T in
         let e2_ := eb578_T / ea434_T in
         let e3_ := eb434_T / ea434_T in
         let z := (R_i - e1_) / (e2_ - R_i * e3_) in
         nth i (abs434 L) 0 = abs434_i
         /\ nth i (abs578 L) 0 = abs578_i
         /\ nth i (pointph L) 0 =
              fst (Np.Cadd_real pKa_ (Np.clog10 (Np.tocomplex z)))
         /\ (z < 0 -> nth i (pointph L) 0 = pKa_ + Np.log10 (- z))
         /\ (0 < z -> nth i (pointph L) 0 = pKa_ + Np.log10 z).
Proof.
  intros Href Hlight Hpsal.
  destruct (@ph_phwater_locals_total ref light therm ea434 eb434 ea578 eb578 psal
              Href Hlight) as [L HLeq].
  { exists S_. exact Hpsal. }
  exists L. split; [exact HLeq|].
  pose proof (ph_phwater_locals_ran _ _ _ _ _ _ _ _ HLeq) as HL.
  split; [apply (len_pointph HL Hpsal)|].
  intros i Hi. cbv zeta.
  rewrite <- (nth_abs434 HL Hi), <- (nth_abs578 HL Hi).
  rewrite <- (ran_ea434 HL), <- (ran_ea578 HL), <- (ran_eb434 HL),
    <- (ran_eb578 HL).
  rewrite <- (nth_R HL Hi), <- (ran_e1 HL), <- (ran_e2 HL), <- (ran_e3 HL).
  rewrite <- (nth_V1 HL Hi), <- (nth_V2 HL Hi).
  assert (Hp := nth_pointph HL Hpsal Hi).
  split; [reflexivity|]. split; [reflexivity|].
  split; [exact Hp|]. split; intros Hz; rewrite Hp, re_Cadd_real.
  - rewrite re_clog10_neg by exact Hz. reflexivity.
  - rewrite re_clog10_nonneg by lra. reflexivity.
Qed.

Lemma pointph_is_real_part_of_complex_log_witness :
  exists L,
    ph_phwater_locals spec_ref lin_light 20 17709 2287 107 38222 (Scalar 35)
    = Ok L
    /\ length (pointph L) = 23%nat.
Proof.
  destruct (@pointph_is_real_part_of_complex_log
              spec_ref lin_light 20 17709 2287 107 38222 (Scalar 35) 35)
    as [L [H1 [H2 _]]].
  - simpl. lia.
  - reflexivity.
  - left. reflexivity.
  - exists L. split; [exact H1 | exact H2].
Defined.

(** C6. For every record with measured temperature [T], the run completes
    and the four molar absorptivities it uses from then on are
    [ea434 - 26 (T - 24.788)], [eb434 + 12 (T - 24.788)],
    [ea578 + (T - 24.788)] and [eb578 - 71 (T - 24.788)]: the ratios [e1],
    [e2], [e3] and the indicator concentrations [HI] and [I] are computed
    from these corrected values. *)
Theorem absorptivities_are_temperature_corrected
        (ref light : list R) (therm ea434 eb434 ea578 eb578 : R)
        (psal : npval) (S_ : R) :
  (16 <= length ref)%nat -> length light = 92%nat ->
  psal = Scalar S_ \/ psal = Arr [S_] ->
  exists L,
    ph_phwater_locals ref light therm ea434 eb434 ea578 eb578 psal = Ok L
    /\ let ea434_T := ea434 - 26 * (therm - 24.788) in
       let eb434_T := eb434 + 12 * (therm - 24.788) in
       let ea578_T := ea578 + (therm - 24.788) in
       let eb578_T := eb578 - 71 * (therm - 24.788) in
       ea434' L = ea434_T /\ eb434' L = eb434_T
       /\ ea578' L = ea578_T /\ eb578' L = eb578_T
       /\ e1 L = ea578_T / ea434_T
       /\ e2 L = eb578_T / ea434_T
       /\ e3 L = eb434_T / ea434_T
       /\ forall i, (i < 23)%nat ->
            nth i (HI L) 0 =
              (nth i (abs434 L) 0 * eb578_T - nth i (abs578 L) 0 * eb434_T)
              / (ea434_T * eb578_T - eb434_T * ea578_T)
            /\ nth i (I_ L) 0 =
                 (nth i (abs578 L) 0 * ea434_T - nth i (abs434 L) 0 * ea578_T)
                 / (ea434_T * eb578_T - eb434_T * ea578_T)
            /\ nth i (IndConc L) 0 = nth i (HI L) 0 + nth i (I_ L) 0.
Proof.
  intros Href Hlight Hpsal.
  destruct (@ph_phwater_locals_total ref light therm ea434 eb434 ea578 eb578 psal
              Href Hlight) as [L HLeq].
  { exists S_. exact Hpsal. }
  exists L. split; [exact HLeq|].
  pose proof (ph_phwater_locals_ran _ _ _ _ _ _ _ _ HLeq) as HL.
  cbv zeta.
  rewrite <- (ran_ea434 HL), <- (ran_ea578 HL), <- (ran_eb434 HL),
    <- (ran_eb578 HL).
  repeat (split; [reflexivity|]).
  split; [apply (ran_e1 HL)|]. split; [apply (ran_e2 HL)|].
  split; [apply (ran_e3 HL)|].
  intros i Hi. split; [apply (nth_HI HL Hi)|].
  split; [apply (nth_I HL Hi) | apply (nth_IndConc HL Hi)].
Qed.

Lemma absorptivities_are_temperature_corrected_witness :
  exists L,
    ph_phwater_locals spec_ref lin_light 20 17709 2287 107 38222 (Scalar 35)
    = Ok L
    /\ ea434' L = 17709 - 26 * (20 - 24.788)
    /\ eb434' L = 2287 + 12 * (20 - 24.788)
    /\ ea578' L = 107 + (20 - 24.788)
    /\ eb578' L = 38222 - 71 * (20 - 24.788).
Proof.
  destruct (@absorptivities_are_temperature_corrected
              spec_ref lin_light 20 17709 2287 107 38222 (Scalar 35) 35)
    as [L [H1 [H2 [H3 [H4 [H5 _]]]]]].
  - simpl. lia.
  - reflexivity.
  - left. reflexivity.
  - exists L. repeat split; assumption.
Defined.

(** ** Least squares on the points of a line *)









(** *** Logarithms and the sets of the sample light cycle *)

Lemma ln_10_neq_0 : ln 10 <> 0.
Proof. apply ln_neq_0; lra. Qed.

Lemma log10_1 : Np.log10 1 = 0.
Proof. unfold Np.log10. rewrite ln_1. unfold Rdiv. ring. Qed.

Lemma log10_tenth : Np.log10 (1 / 10) = -1.
Proof.
  unfold Np.log10. replace (1 / 10) with (/ 10) by lra.
  rewrite ln_Rinv by lra. field. apply ln_10_neq_0.
Qed.

Lemma lin_light_sets (i : nat) :
  (i < 23)%nat ->
  nth (4 * i) lin_light 0 = (if Nat.even i then 10 else 100)
  /\ nth (4 * i + 1) lin_light 0 = 1
  /\ nth (4 * i + 2) lin_light 0 = 100
  /\ nth (4 * i + 3) lin_light 0 = 1.
Proof.
  intros Hi.
  do 23 (destruct i as [|i]; [repeat split; reflexivity|]).
  lia.
Qed.


(** ** The window search and the final regression in float64
       (lines 205-257) *)

Section FlLemmas.

Variable A : Fl.arith.




Hypothesis Hord : Fl.ieee_order A.





End FlLemmas.

(** *** The order of binary64 *)

Lemma SFleb_trans (x y z : SpecFloat.spec_float) :
  SpecFloat.SFleb x y = true -> SpecFloat.SFleb y z = true ->
  SpecFloat.SFleb x z = true.
Proof.
  unfold SpecFloat.SFleb.
  destruct x as [sx | sx | | sx mx ex], y as [sy | sy | | sy my ey],
           z as [sz | sz | | sz mz ez];
    try destruct sx; try destruct sy; try destruct sz;
    cbn [SpecFloat.SFcompare]; try reflexivity; try discriminate;
    intros Hxy Hyz; sf_cases.
Qed.

Lemma SFleb_total (x y : SpecFloat.spec_float) :
  x <> SpecFloat.S754_nan -> y <> SpecFloat.S754_nan ->
  SpecFloat.SFleb x y = true \/ SpecFloat.SFleb y x = true.
Proof.
  unfold SpecFloat.SFleb.
  destruct x as [sx | sx | | sx mx ex], y as [sy | sy | | sy my ey];
    try destruct sx; try destruct sy;
    cbn [SpecFloat.SFcompare]; intros Hx Hy;
    try congruence; try (left; reflexivity); try (right; reflexivity);
    sf_cases;
    try (left; reflexivity); try (right; reflexivity).
Qed.

Lemma is_nan_Prim2SF (x : PrimFloat.float) :
  PrimFloat.is_nan x = true <-> FloatOps.Prim2SF x = SpecFloat.S754_nan.
Proof.
  unfold PrimFloat.is_nan. rewrite FloatAxioms.eqb_spec.
  unfold SpecFloat.SFeqb.
  destruct (FloatOps.Prim2SF x) as [s | s | | s m e]; try destruct s;
    cbn [SpecFloat.SFcompare negb];
    try (split; [discriminate | discriminate]);
    try (split; reflexivity);
    sf_cases; split; discriminate.
Qed.

(** The comparison and [np.isnan] of binary64 satisfy the laws of
    [Fl.ieee_order]. *)
Lemma binary64_ieee_order : Fl.ieee_order Fl.binary64.
Proof.
  split; cbn [Fl.fleb Fl.fisnan Fl.binary64 Fl.num].
  - intros x y z. rewrite !FloatAxioms.leb_spec. apply SFleb_trans.
  - intros x y Hx Hy. rewrite !FloatAxioms.leb_spec.
    apply SFleb_total; intros E; apply is_nan_Prim2SF in E; congruence.
  - intros x y Hx. rewrite FloatAxioms.leb_spec.
    apply is_nan_Prim2SF in Hx. rewrite Hx. reflexivity.
Qed.

Lemma binary64_pairwise_ieee_order : Fl.ieee_order Fl.binary64_pairwise.
Proof.
  destruct binary64_ieee_order as [H1 H2 H3]. split; assumption.
Qed.

(** *** WindowSelector (lines 205-240) in float64 *)






(** *** FinalPHRegressor (lines 242-257) in float64 *)


Section FinalRegression.

Variable A : Fl.arith.
Variable repr : Fl.num A -> R -> Prop.




End FinalRegression.





(** *** The idealised run is the float64 embedding at exact arithmetic *)

Lemma Fl_setitem_exact (a : list R) (k : nat) (x : R) :
  Fl.setitem Fl.exact a k x = Np.setitem a k x.
Proof.
  revert k. induction a as [|h a IH]; intros [|k]; simpl; try rewrite IH;
    reflexivity.
Qed.

Lemma Fl_fill_loop_exact (n : nat) (f : nat -> R) (a : list R) :
  Fl.fill_loop Fl.exact n f a = fill_loop n f a.
Proof.
  unfold Fl.fill_loop, fill_loop. generalize (seq 0 n). intros idx.
  revert a. induction idx as [|i idx IH]; intros a; simpl; [reflexivity|].
  rewrite Fl_setitem_exact. apply IH.
Qed.

Lemma Fl_argmax_from_exact (a : list R) (mp : R) (mi i : nat) :
  Fl.argmax_from Fl.exact mp mi i a = Np.argmax_from mp mi i a.
Proof.
  revert mp mi i. induction a as [|x a IH]; intros mp mi i; simpl;
    [reflexivity|].
  destruct (Rle_dec x mp) as [Hle|Hgt], (Rlt_dec mp x) as [Hlt|Hnlt];
    simpl; try (exfalso; lra); apply IH.
Qed.

Lemma Fl_argmax_exact (a : list R) : Fl.argmax Fl.exact a = Np.argmax a.
Proof.
  destruct a as [|x a]; [reflexivity|]. simpl.
  rewrite Fl_argmax_from_exact. reflexivity.
Qed.

Lemma Fl_linspace_exact :
  Fl.linspace Fl.exact (Fl.fnat Fl.exact 1) (Fl.fnat Fl.exact 18) 18
  = Np.linspace 1 18 18.
Proof.
  unfold Fl.linspace, Np.linspace.
  cbn [seq map Fl.set_last Nat.sub Fl.fadd Fl.fsub Fl.fmul Fl.fdiv Fl.fnat
       Fl.exact Fl.num].
  repeat (f_equal; [simpl; lra|]).
  f_equal. simpl. field.
Qed.

(** On a completed run of [ph_phwater_locals] the locals of lines 205-256
    are those of [Fl.ph_tail] at exact arithmetic, applied to the arrays
    [IndConc] and [pointph] of the run. *)
Lemma ph_phwater_locals_tail ref light therm ea434 eb434 ea578 eb578 psal L :
  ph_phwater_locals ref light therm ea434 eb434 ea578 eb578 psal = Ok L ->
  exists t,
    Fl.ph_tail Fl.exact (IndConc L) (pointph L) = Ok t
    /\ Fl.X t = X L /\ Fl.Y t = Y L /\ Fl.r2 t = r2 L
    /\ Fl.cutoff1 t = cutoff1 L
    /\ Fl.IndConcS t = IndConcS L /\ Fl.pointphS t = pointphS L
    /\ Fl.slope t = slope L /\ Fl.ph t = ph L.
Proof.
  intros HL. apply ph_phwater_locals_ran in HL.
  unfold Fl.ph_tail. rewrite Fl_linspace_exact.
  rewrite linspace_length. change (18 - 7)%nat with 11%nat.
  rewrite Fl_fill_loop_exact, Fl_argmax_exact.
  change (Fl.num Fl.exact) with R.
  change (Fl.zeros Fl.exact 11) with (Np.zeros 11).
  change (Fl.r2_window Fl.exact (Np.linspace 1 18 18)
            (Np.slice_from 5 (pointph L)) (7 + 1))
    with (r2_window (Np.linspace 1 18 18) (Np.slice_from 5 (pointph L)) 8).
  rewrite <- (ran_X HL), <- (ran_Y HL), <- (ran_r2 HL).
  rewrite (ran_cutoff1 HL), bind_Ok.
  eexists. split; [reflexivity|].
  cbn [Fl.X Fl.Y Fl.r2 Fl.cutoff1 Fl.IndConcS Fl.pointphS Fl.slope Fl.ph].
  change (7 + 1)%nat with 8%nat.
  rewrite <- (ran_IndConca HL), <- (ran_cutoff2 HL),
          <- (ran_IndConcS HL), <- (ran_pointphS HL).
  repeat (split; [reflexivity|]).
  split.
  - rewrite (ran_slope HL). reflexivity.
  - rewrite (ran_ph HL), (ran_slope HL). reflexivity.
Qed.

(** ** BatchOrchestrator (lines 72-99) *)

Lemma ph_phwater_total ref light therm ea434 eb434 ea578 eb578 psal :
  (16 <= length ref)%nat -> length light = 92%nat ->
  (exists s, psal = Scalar s \/ psal = Arr [s]) ->
  exists v, ph_phwater ref light therm ea434 eb434 ea578 eb578 psal = Ok v.
Proof.
  intros Href Hlight Hpsal.
  destruct (@ph_phwater_locals_total ref light therm ea434 eb434 ea578 eb578
              psal Href Hlight Hpsal) as [L HL].
  exists (ph L). unfold ph_phwater. rewrite HL. reflexivity.
Qed.

(** The salinity as a one-element array (what the wrapper passes after
    [np.tile]) gives the same result as the scalar. *)
Lemma ph_phwater_singleton ref light therm ea434 eb434 ea578 eb578 (s : R) :
  ph_phwater ref light therm ea434 eb434 ea578 eb578 (Arr [s]) =
  ph_phwater ref light therm ea434 eb434 ea578 eb578 (Scalar s).
Proof.
  unfold ph_phwater, ph_phwater_locals.
  destruct (blanks ref) as [bb|e]; [|reflexivity].
  rewrite !bind_Ok. cbv zeta.
  destruct (Np.reshape light 23 4) as [new|e]; [|reflexivity].
  rewrite !bind_Ok. simpl Np.npmap. rewrite add_log_singleton.
  match goal with
  | |- context [Np.add_log ?p ?lg] => destruct (Np.add_log p lg) as [sv|e]
  end; [|reflexivity].
  rewrite !bind_Ok.
  match goal with
  | |- context [Np.argmax ?r] => destruct (Np.argmax r) as [c|e]
  end; [|reflexivity].
  reflexivity.
Qed.

Lemma nth_repeat_lt (A : Type) (a d : A) (n i : nat) :
  (i < n)%nat -> nth i (repeat a n) d = a.
Proof.
  revert i. induction n as [|n IH]; intros i Hi; [lia|].
  destruct i as [|i]; simpl; [reflexivity|]. apply IH. lia.
Qed.

Lemma psal_item_tiled (s : R) (nRec i : nat) :
  (i < nRec)%nat -> psal_item (tile_psal (Scalar s) nRec) i = Ok (Arr [s]).
Proof.
  intros Hi. simpl. rewrite getrow_nth by (rewrite repeat_length; exact Hi).
  rewrite nth_repeat_lt by exact Hi. reflexivity.
Qed.

(** The loop body on record [i], for a scalar salinity: the single-record
    function on the entries [i] of the inputs. *)
Lemma record_ph_Ok ref light therm ea434 eb434 ea578 eb578 (s : R) (i : nat) (v : R) :
  (i < length ref)%nat ->
  record_ph ref light therm ea434 eb434 ea578 eb578
            (tile_psal (Scalar s) (length ref)) i = Ok v
  <-> ((i < length light)%nat /\ (i < length therm)%nat
       /\ (i < length ea434)%nat /\ (i < length eb434)%nat
       /\ (i < length ea578)%nat /\ (i < length eb578)%nat)
      /\ ph_phwater (nth i ref []) (nth i light []) (nth i therm 0)
                    (nth i ea434 0) (nth i eb434 0) (nth i ea578 0)
                    (nth i eb578 0) (Scalar s) = Ok v.
Proof.
  intros Hi. unfold record_ph. rewrite (psal_item_tiled s Hi). split.
  - intros H. bind_inv H.
    repeat match goal with
           | E : Np.getrow _ _ = Ok _ |- _ =>
               apply getrow_Ok in E; destruct E as [? ->]
           | E : Np.getitem _ _ = Ok _ |- _ =>
               apply getitem_Ok in E; destruct E as [? ->]
           | E : Ok _ = Ok _ |- _ => injection E as <-
           end.
    rewrite ph_phwater_singleton in H. auto 10.
  - intros [[H1 [H2 [H3 [H4 [H5 H6]]]]] H].
    rewrite !getrow_nth, !getitem_nth by assumption.
    rewrite !bind_Ok, ph_phwater_singleton. exact H.
Qed.

Lemma record_loop_Ok (body : nat -> result R) (idx : list nat)
      (acc pH : list R) :
  NoDup idx -> (forall i, In i idx -> (i < length acc)%nat) ->
  (record_loop body idx acc = Ok pH
   <-> length pH = length acc
       /\ (forall i, In i idx -> body i = Ok (nth i pH 0))
       /\ (forall i, ~ In i idx -> nth i pH 0 = nth i acc 0)).
Proof.
  revert acc. induction idx as [|i idx IH]; intros acc Hnd Hin.
  - simpl. split.
    + intros H. injection H as <-. split; [reflexivity|]. split.
      * intros i [].
      * reflexivity.
    + intros [Hlen [_ Hnth]]. f_equal. symmetry.
      apply (nth_ext _ _ 0 0); [exact Hlen|]. intros n _. apply Hnth. intros [].
  - inversion Hnd as [|? ? Hni Hnd']; subst.
    cbn [record_loop]. split.
    + intros H. destruct (body i) as [v|e] eqn:Ev; [|discriminate H].
      rewrite bind_Ok in H.
      apply IH in H;
        [|exact Hnd'|intros j Hj; rewrite setitem_length; apply Hin; right; exact Hj].
      destruct H as [Hlen [Hbody Hrest]].
      rewrite setitem_length in Hlen.
      split; [exact Hlen|]. split.
      * intros j [Hj | Hj]; [subst j|apply Hbody; exact Hj].
        rewrite Ev. f_equal.
        rewrite (Hrest i Hni), setitem_nth_same; [reflexivity|].
        apply Hin. left. reflexivity.
      * intros j Hj. rewrite Hrest by (intros Hj'; apply Hj; right; exact Hj').
        apply setitem_nth_other. intros ->. apply Hj. left. reflexivity.
    + intros [Hlen [Hbody Hrest]].
      rewrite (Hbody i) by (left; reflexivity). rewrite bind_Ok.
      apply IH;
        [exact Hnd'|intros j Hj; rewrite setitem_length; apply Hin; right; exact Hj|].
      split; [rewrite setitem_length; exact Hlen|]. split.
      * intros j Hj. apply Hbody. right. exact Hj.
      * intros j Hj. destruct (Nat.eq_dec j i) as [->|Hne].
        -- rewrite setitem_nth_same; [reflexivity|].
           apply Hin. left. reflexivity.
        -- rewrite setitem_nth_other by exact Hne.
           apply Hrest. intros [<- | Hj']; [congruence | contradiction].
Qed.

(** The loop over [range(n)] on [np.zeros(n)]. *)
Lemma record_loop_range (body : nat -> result R) (n : nat) (pH : list R) :
  record_loop body (seq 0 n) (Np.zeros n) = Ok pH
  <-> length pH = n /\ forall i, (i < n)%nat -> body i = Ok (nth i pH 0).
Proof.
  assert (Hz : length (Np.zeros n) = n) by apply repeat_length.
  rewrite record_loop_Ok.
  - rewrite Hz. split.
    + intros [Hlen [Hbody _]]. split; [exact Hlen|].
      intros i Hi. apply Hbody. apply in_seq. lia.
    + intros [Hlen Hbody]. split; [exact Hlen|]. split.
      * intros i Hi. apply Hbody. apply in_seq in Hi. lia.
      * intros i Hi. rewrite !nth_overflow; [reflexivity | |].
        -- rewrite Hz. destruct (Nat.lt_ge_cases i n) as [Hlt|Hge]; [|exact Hge].
           exfalso. apply Hi. apply in_seq. lia.
        -- rewrite Hlen. destruct (Nat.lt_ge_cases i n) as [Hlt|Hge]; [|exact Hge].
           exfalso. apply Hi. apply in_seq. lia.
  - apply seq_NoDup.
  - intros i Hi. apply in_seq in Hi. rewrite Hz. lia.
Qed.

(** An exception in the body leaves the loop at once. *)
Lemma record_loop_Raise (body : nat -> result R) (pre post : list nat)
      (i : nat) (e : exn) (acc : list R) :
  (forall k, In k pre -> exists v, body k = Ok v) ->
  body i = Raise e ->
  record_loop body (pre ++ i :: post) acc = Raise e.
Proof.
  revert acc. induction pre as [|k pre IH]; intros acc Hpre Hi; simpl.
  - rewrite Hi. reflexivity.
  - destruct (Hpre k) as [v Hv]; [left; reflexivity|].
    rewrite Hv, bind_Ok. apply IH; [|exact Hi].
    intros j Hj. apply Hpre. right. exact Hj.
Qed.

Lemma seq_split_at (n i : nat) :
  (i < n)%nat -> seq 0 n = seq 0 i ++ i :: seq (S i) (n - S i).
Proof.
  intros Hi. replace n with (i + S (n - S i))%nat at 1 by lia.
  rewrite seq_app. reflexivity.
Qed.



(** C7, as the code has it.  In [short_batch] record 0 is valid and record 1
    has no [ea434] entry; the loop stores record 0's result, raises
    [IndexError] at record 1, and the call returns nothing for record 0. *)
Lemma batch_failure_is_not_isolated :
  (exists v,
     ph_phwater lin_ref lin_light 24.788 1 0 0 1 (Scalar 35) = Ok v
     /\ record_ph [lin_ref; lin_ref] [lin_light; lin_light] [24.788; 24.788]
                  [1] [0; 0] [0; 0] [1; 1] (tile_psal (Scalar 35) 2) 0 = Ok v)
  /\ record_ph [lin_ref; lin_ref] [lin_light; lin_light] [24.788; 24.788]
               [1] [0; 0] [0; 0] [1; 1] (tile_psal (Scalar 35) 2) 1
     = Raise IndexError
  /\ ph_calc_phwater short_batch = Raise IndexError
  /\ ~ (exists out, ph_calc_phwater short_batch = Ok out).
Proof.
  assert (H0 : exists v,
     ph_phwater lin_ref lin_light 24.788 1 0 0 1 (Scalar 35) = Ok v
     /\ record_ph [lin_ref; lin_ref] [lin_light; lin_light] [24.788; 24.788]
                  [1] [0; 0] [0; 0] [1; 1] (tile_psal (Scalar 35) 2) 0 = Ok v).
  { destruct (@ph_phwater_total lin_ref lin_light 24.788 1 0 0 1 (Scalar 35))
      as [v Hv]; [simpl; lia | reflexivity | exists 35; left; reflexivity |].
    exists v. split; [exact Hv|].
    apply (@record_ph_Ok [lin_ref; lin_ref] [lin_light; lin_light]
             [24.788; 24.788] [1] [0; 0] [0; 0] [1; 1] 35 0 v); [simpl; lia|].
    split; [simpl; lia | exact Hv]. }
  assert (H1 :
     record_ph [lin_ref; lin_ref] [lin_light; lin_light] [24.788; 24.788]
               [1] [0; 0] [0; 0] [1; 1] (tile_psal (Scalar 35) 2) 1
     = Raise IndexError) by reflexivity.
  assert (H2 : ph_calc_phwater short_batch = Raise IndexError).
  { unfold ph_calc_phwater, short_batch. cbv zeta.
    change (psal_default None) with (Scalar 35).
    change (length [lin_ref; lin_ref]) with 2%nat.
    rewrite (@record_loop_Raise _ [0%nat] [] 1%nat IndexError).
    - reflexivity.
    - intros k [<- | []]. destruct H0 as [v [_ Hv]]. exists v. exact Hv.
    - exact H1. }
  split; [exact H0|]. split; [exact H1|]. split; [exact H2|].
  intros [out Hout]. rewrite H2 in Hout. discriminate Hout.
Qed.

(** C7, amended.  The batch call is fail-fast: the records are processed in
    index order, and when record [i] is the first whose computation raises,
    the whole call raises that exception; no result is returned for any
    record, the valid ones included. *)
Theorem batch_raises_first_record_failure
        (ref light : list (list R)) (therm ea434 eb434 ea578 eb578 : list R)
        (psal : option npval) (i : nat) (e : exn) :
  let body := record_ph ref light therm ea434 eb434 ea578 eb578
                        (tile_psal (psal_default psal) (length ref)) in
  (i < length ref)%nat ->
  body i = Raise e ->
  (forall k, (k < i)%nat -> exists v, body k = Ok v) ->
  ph_calc_phwater (ManyRecords ref light therm ea434 eb434 ea578 eb578 psal)
  = Raise e
  /\ forall out,
       ph_calc_phwater (ManyRecords ref light therm ea434 eb434 ea578 eb578 psal)
       <> Ok out.
Proof.
  intros body Hi He Hpre.
  assert (H : ph_calc_phwater
                (ManyRecords ref light therm ea434 eb434 ea578 eb578 psal)
              = Raise e).
  { unfold ph_calc_phwater. cbv zeta. fold body.
    rewrite (seq_split_at Hi).
    rewrite (@record_loop_Raise body _ _ i e).
    - reflexivity.
    - intros k Hk. apply in_seq in Hk. apply Hpre. lia.
    - exact He. }
  split; [exact H|]. intros out Hout. rewrite H in Hout. discriminate Hout.
Qed.

Lemma batch_raises_first_record_failure_witness :
  ph_calc_phwater short_batch = Raise IndexError.
Proof.
  apply (@batch_raises_first_record_failure
           [lin_ref; lin_ref] [lin_light; lin_light] [24.788; 24.788]
           [1] [0; 0] [0; 0] [1; 1] None 1 IndexError).
  - simpl. lia.
  - reflexivity.
  - intros k Hk. replace k with 0%nat by lia.
    destruct (@ph_phwater_total lin_ref lin_light 24.788 1 0 0 1 (Scalar 35))
      as [v Hv]; [simpl; lia | reflexivity | exists 35; left; reflexivity |].
    exists v.
    apply (@record_ph_Ok [lin_ref; lin_ref] [lin_light; lin_light]
             [24.788; 24.788] [1] [0; 0] [0; 0] [1; 1] 35 0 v); [simpl; lia|].
    split; [simpl; lia | exact Hv].
Defined.

(** ** Malformed light cycles (lines 164-165) *)

(** C9. For every light cycle whose length is not 92 (91 or 93, say) the
    computation raises an exception and returns no pH: when the reference
    cycle has its 16 entries it is the [ValueError] of [np.reshape], the
    code's form of MalformedRecord; nothing is reshaped, padded or
    truncated to 23 x 4. *)
Theorem bad_light_length_raises
        (ref light : list R) (therm ea434 eb434 ea578 eb578 : R)
        (psal : npval) :
  length light <> 92%nat ->
  (exists e, ph_phwater ref light therm ea434 eb434 ea578 eb578 psal = Raise e)
  /\ (forall v, ph_phwater ref light therm ea434 eb434 ea578 eb578 psal <> Ok v)
  /\ ((16 <= length ref)%nat ->
      ph_phwater ref light therm ea434 eb434 ea578 eb578 psal = Raise ValueError
      /\ ph_calc_phwater
           (OneRecord ref light therm ea434 eb434 ea578 eb578 (Some psal))
         = Raise ValueError).
Proof.
  intros Hlen.
  assert (H : forall bb,
            blanks ref = Ok bb ->
            ph_phwater ref light therm ea434 eb434 ea578 eb578 psal
            = Raise ValueError).
  { intros bb Hbb. unfold ph_phwater, ph_phwater_locals.
    rewrite Hbb, bind_Ok. cbv zeta.
    rewrite (@reshape_Raise light 23 4) by exact Hlen. reflexivity. }
  assert (H' : exists e,
             ph_phwater ref light therm ea434 eb434 ea578 eb578 psal = Raise e).
  { destruct (blanks ref) as [bb|e] eqn:Hbb.
    - exists ValueError. apply (H bb). reflexivity.
    - exists e. unfold ph_phwater, ph_phwater_locals. rewrite Hbb. reflexivity. }
  split; [exact H'|]. split.
  - intros v Hv. destruct H' as [e He]. rewrite He in Hv. discriminate Hv.
  - intros Href.
    assert (Hph : ph_phwater ref light therm ea434 eb434 ea578 eb578 psal
                  = Raise ValueError).
    { apply (H _ (blanks_16 ref Href)). }
    split; [exact Hph|].
    unfold ph_calc_phwater. cbv zeta. simpl psal_default.
    rewrite Hph. reflexivity.
Qed.

Lemma bad_light_length_raises_witness :
  ph_phwater spec_ref (repeat 1 91) 20 17709 2287 107 38222 (Scalar 35)
  = Raise ValueError
  /\ ph_phwater spec_ref (repeat 1 93) 20 17709 2287 107 38222 (Scalar 35)
     = Raise ValueError.
Proof.
  split.
  - apply (@bad_light_length_raises
             spec_ref (repeat 1 91) 20 17709 2287 107 38222 (Scalar 35)).
    + simpl. lia.
    + simpl. lia.
  - apply (@bad_light_length_raises
             spec_ref (repeat 1 93) 20 17709 2287 107 38222 (Scalar 35)).
    + simpl. lia.
    + simpl. lia.
Defined.

(** ** The L0 intensity wrappers (lines 16-55) *)

Lemma forallb_app_one (A : Type) (p : A -> bool) (m : list A) (x : A) :
  forallb p m = true -> p x = true -> forallb p (m ++ [x]) = true.
Proof.
  intros Hm Hx. rewrite forallb_app, Hm. simpl. rewrite Hx. reflexivity.
Qed.

(** The loop of the multi-record branch, started on a two dimensional [tmp]
    of 23 columns, appends column [k] of each record. *)
Lemma stack_column_Arr2 (k : nat) (light m : list (list R)) :
  Forall (fun iRec => length iRec = 92%nat) light ->
  forallb (fun r => Nat.eqb (length r) 23) m = true ->
  stack_column k light (Arr2 m) =
    Ok (Arr2 (m ++ map (fun iRec => Np.column k (Np.chunks 4 23 iRec)) light)).
Proof.
  intros Hl. revert m. induction Hl as [|iRec light Hi Hl IH]; intros m Hm.
  - simpl. rewrite app_nil_r. reflexivity.
  - cbn [stack_column map].
    rewrite (reshape_size iRec 23 4 Hi), bind_Ok.
    unfold Np.vstack. rewrite column_length, chunks_length, Hm, bind_Ok.
    rewrite IH.
    + rewrite <- app_assoc. reflexivity.
    + apply forallb_app_one; [exact Hm|].
      rewrite column_length, chunks_length. reflexivity.
Qed.

(** After the loop of the multi-record branch on a non-empty batch, [tmp]
    is the row of zeros followed, record by record, by the column asked
    for. *)
Lemma stack_column_batch (k : nat) (iRec : list R) (light : list (list R)) :
  Forall (fun r => length r = 92%nat) (iRec :: light) ->
  stack_column k (iRec :: light) (Arr1 (Np.zeros 23))
  = Ok (Arr2 (Np.zeros 23
              :: map (fun r => Np.column k (Np.chunks 4 23 r)) (iRec :: light))).
Proof.
  intros Hl. inversion Hl as [|? ? Hi Hl']; subst.
  cbn [stack_column].
  rewrite (reshape_size iRec 23 4 Hi), bind_Ok.
  unfold Np.vstack.
  change (length (Np.zeros 23)) with 23%nat.
  rewrite column_length, chunks_length. cbn [Nat.eqb]. rewrite bind_Ok.
  rewrite stack_column_Arr2.
  - reflexivity.
  - exact Hl'.
  - cbn [forallb]. rewrite column_length, chunks_length. reflexivity.
Qed.

(** C10. For every single 92-element light record passed as a one
    dimensional array, [ph_434_intensity] returns exactly the 23 values
    [ph_578_intensity] returns, namely column 3 (the 578 nm signal) of the
    23 x 4 reshape, entry [i] being [light[4 i + 3]]; the multi-record
    branch of [ph_434_intensity] extracts column 1 (the 434 nm signal) for
    the same record, entry [i] being [light[4 i + 1]], so the two differ
    whenever columns 1 and 3 differ. *)
Theorem ph_434_intensity_single_record_is_578
        (light : list R) :
  length light = 92%nat ->
  let col1 := Np.column 1 (Np.chunks 4 23 light) in
  let col3 := Np.column 3 (Np.chunks 4 23 light) in
  ph_434_intensity (Arr1 light) = Ok (Arr1 col3)
  /\ ph_578_intensity (Arr1 light) = Ok (Arr1 col3)
  /\ ph_434_intensity (Arr1 light) = ph_578_intensity (Arr1 light)
  /\ ph_434_intensity (Arr2 [light]) = Ok (Arr2 [col1])
  /\ ph_578_intensity (Arr2 [light]) = Ok (Arr2 [col3])
  /\ length col1 = 23%nat /\ length col3 = 23%nat
  /\ (forall i, (i < 23)%nat ->
        nth i col1 0 = nth (4 * i + 1) light 0
        /\ nth i col3 0 = nth (4 * i + 3) light 0)
  /\ (col1 <> col3 -> ph_434_intensity (Arr1 light) <> Ok (Arr1 col1)).
Proof.
  intros Hlen col1 col3.
  assert (H1 : ph_434_intensity (Arr1 light) = Ok (Arr1 col3)).
  { unfold ph_434_intensity. rewrite (reshape_size light 23 4 Hlen). reflexivity. }
  assert (H2 : ph_578_intensity (Arr1 light) = Ok (Arr1 col3)).
  { unfold ph_578_intensity. rewrite (reshape_size light 23 4 Hlen). reflexivity. }
  split; [exact H1|]. split; [exact H2|].
  split; [rewrite H1, H2; reflexivity|].
  split.
  { unfold ph_434_intensity. cbv zeta.
    rewrite (@stack_column_batch 1 light []); [reflexivity|].
    constructor; [exact Hlen | constructor]. }
  split.
  { unfold ph_578_intensity. cbv zeta.
    rewrite (@stack_column_batch 3 light []); [reflexivity|].
    constructor; [exact Hlen | constructor]. }
  split; [unfold col1; rewrite column_length; apply chunks_length|].
  split; [unfold col3; rewrite column_length; apply chunks_length|].
  split.
  { intros i Hi. split; apply column_chunks_nth; lia. }
  intros Hne H. rewrite H1 in H. apply Hne. congruence.
Qed.

Lemma ph_434_intensity_single_record_is_578_witness :
  ph_434_intensity (Arr1 ramp_light) = ph_578_intensity (Arr1 ramp_light)
  /\ ph_434_intensity (Arr1 ramp_light)
     = Ok (Arr1 (Np.column 3 (Np.chunks 4 23 ramp_light)))
  /\ ph_434_intensity (Arr2 [ramp_light])
     = Ok (Arr2 [Np.column 1 (Np.chunks 4 23 ramp_light)])
  /\ ph_434_intensity (Arr1 ramp_light)
     <> Ok (Arr1 (Np.column 1 (Np.chunks 4 23 ramp_light))).
Proof.
  destruct (@ph_434_intensity_single_record_is_578 ramp_light)
    as [H1 [_ [H3 [H4 [_ [_ [_ [_ H9]]]]]]]].
  - reflexivity.
  - split; [exact H3|]. split; [exact H1|]. split; [exact H4|].
    apply H9. intros E.
    apply (f_equal (fun l => nth 0 l 0)) in E.
    rewrite !column_chunks_nth in E by lia.
    simpl in E. lra.
Defined.

(** ** The thermistor conversion (lines 58-69) *)

(** The thermistor resistance [Rt] grows with the count and is at least 1
    ohm from one count on. *)
Lemma thermistor_resistance (t1 t2 : R) :
  1 <= t1 -> t1 < t2 -> t2 < 4096 ->
  1 <= (t1 / (4096 - t1)) * 17400
  /\ (t1 / (4096 - t1)) * 17400 < (t2 / (4096 - t2)) * 17400.
Proof.
  intros H1 H12 H2.
  assert (P1 : 0 < 4096 - t1) by lra.
  assert (P2 : 0 < 4096 - t2) by lra.
  split.
  - apply (Rmult_le_reg_r (4096 - t1)); [exact P1|].
    replace (t1 / (4096 - t1) * 17400 * (4096 - t1)) with (t1 * 17400)
      by (field; lra).
    lra.
  - apply (Rmult_lt_reg_r ((4096 - t1) * (4096 - t2))).
    + apply Rmult_lt_0_compat; assumption.
    + replace (t1 / (4096 - t1) * 17400 * ((4096 - t1) * (4096 - t2)))
        with (t1 * 17400 * (4096 - t2)) by (field; lra).
      replace (t2 / (4096 - t2) * 17400 * ((4096 - t1) * (4096 - t2)))
        with (t2 * 17400 * (4096 - t1)) by (field; lra).
      nra.
Qed.

Lemma ln_nonneg (x : R) : 1 <= x -> 0 <= ln x.
Proof.
  intros [H | <-].
  - left. rewrite <- ln_1. apply ln_increasing; lra.
  - rewrite ln_1. lra.
Qed.

(** The Steinhart-Hart polynomial is positive and increasing for a
    non-negative logarithm. *)
Lemma steinhart_hart_increasing (l1 l2 : R) :
  0 <= l1 -> l1 < l2 ->
  0 < 0.0010183 + 0.000241 * l1 + 0.00000015 * l1 ^ 3
  /\ 0.0010183 + 0.000241 * l1 + 0.00000015 * l1 ^ 3
     < 0.0010183 + 0.000241 * l2 + 0.00000015 * l2 ^ 3.
Proof.
  intros H1 H12.
  assert (C1 : 0 <= l1 ^ 3) by (apply pow_le; exact H1).
  assert (C2 : l1 ^ 3 <= l2 ^ 3) by (apply pow_incr; lra).
  split; lra.
Qed.

(** X1. More counts mean a colder thermistor: between 1 and 4096 counts
    [ph_thermistor] is strictly decreasing. *)
Theorem ph_thermistor_decreasing (t1 t2 : R) :
  1 <= t1 -> t1 < t2 -> t2 < 4096 ->
  ph_thermistor t2 < ph_thermistor t1.
Proof.
  intros H1 H12 H2. unfold ph_thermistor. cbv zeta.
  destruct (thermistor_resistance H1 H12 H2) as [R1 R12].
  assert (L1 : 0 <= ln (t1 / (4096 - t1) * 17400)) by (apply ln_nonneg; exact R1).
  assert (L12 : ln (t1 / (4096 - t1) * 17400) < ln (t2 / (4096 - t2) * 17400))
    by (apply ln_increasing; lra).
  destruct (steinhart_hart_increasing L1 L12) as [I1 I12].
  assert (K : 1 / (0.0010183 + 0.000241 * ln (t2 / (4096 - t2) * 17400)
                   + 0.00000015 * ln (t2 / (4096 - t2) * 17400) ^ 3)
              < 1 / (0.0010183 + 0.000241 * ln (t1 / (4096 - t1) * 17400)
                     + 0.00000015 * ln (t1 / (4096 - t1) * 17400) ^ 3)).
  { unfold Rdiv. rewrite !Rmult_1_l.
    apply Rinv_lt_contravar; [|exact I12].
    apply Rmult_lt_0_compat; lra. }
  lra.
Qed.

Lemma ph_thermistor_decreasing_witness :
  ph_thermistor 2049 < ph_thermistor 2048.
Proof.
  apply ph_thermistor_decreasing; lra.
Defined.

(** X2. From one count up to (not including) 4096 the temperature returned
    is above absolute zero and at most 1/0.0010183 K. *)
Theorem ph_thermistor_range (traw : R) :
  1 <= traw -> traw < 4096 ->
  -273.15 < ph_thermistor traw <= 1 / 0.0010183 - 273.15.
Proof.
  intros H1 H2. unfold ph_thermistor. cbv zeta.
  assert (P : 0 < 4096 - traw) by lra.
  assert (R1 : 1 <= traw / (4096 - traw) * 17400).
  { apply (Rmult_le_reg_r (4096 - traw)); [exact P|].
    replace (traw / (4096 - traw) * 17400 * (4096 - traw)) with (traw * 17400)
      by (field; lra).
    lra. }
  assert (L : 0 <= ln (traw / (4096 - traw) * 17400)) by (apply ln_nonneg; exact R1).
  assert (C : 0 <= ln (traw / (4096 - traw) * 17400) ^ 3) by (apply pow_le; exact L).
  set (InvT := 0.0010183 + 0.000241 * ln (traw / (4096 - traw) * 17400)
               + 0.00000015 * ln (traw / (4096 - traw) * 17400) ^ 3).
  assert (I0 : 0.0010183 <= InvT) by (unfold InvT; lra).
  assert (K0 : 0 < 1 / InvT).
  { unfold Rdiv. rewrite Rmult_1_l. apply Rinv_0_lt_compat. lra. }
  assert (K1 : 1 / InvT <= 1 / 0.0010183).
  { unfold Rdiv. rewrite !Rmult_1_l. apply Rinv_le_contravar; lra. }
  split; lra.
Qed.

Lemma ph_thermistor_range_witness :
  -273.15 < ph_thermistor 2048 <= 1 / 0.0010183 - 273.15.
Proof.
  apply ph_thermistor_range; lra.
Defined.

(** ** The L0 intensity wrappers on several records (lines 26-32, 47-53) *)

(** [tmp] within the loop: the row of 23 zeros, or rows of 23 entries. *)
Lemma vstack_23 (tmp : ndarray) (row : list R) :
  match tmp with
  | Arr1 t => length t = 23%nat
  | Arr2 m => forallb (fun r => Nat.eqb (length r) 23) m = true
  end ->
  length row = 23%nat ->
  exists m, Np.vstack tmp row = Ok (Arr2 m)
            /\ forallb (fun r => Nat.eqb (length r) 23) m = true.
Proof.
  intros Htmp Hrow. destruct tmp as [t|m]; unfold Np.vstack; rewrite Hrow.
  - rewrite Htmp. simpl. eexists. split; [reflexivity|].
    simpl. rewrite Htmp, Hrow. reflexivity.
  - rewrite Htmp. eexists. split; [reflexivity|].
    apply forallb_app_one; [exact Htmp|]. rewrite Hrow. reflexivity.
Qed.

(** The first record that is not 92 long stops the loop with the
    [ValueError] of [np.reshape]. *)
Lemma stack_column_bad_record (k : nat) (light : list (list R)) (tmp : ndarray) :
  match tmp with
  | Arr1 t => length t = 23%nat
  | Arr2 m => forallb (fun r => Nat.eqb (length r) 23) m = true
  end ->
  Exists (fun iRec => length iRec <> 92%nat) light ->
  stack_column k light tmp = Raise ValueError.
Proof.
  revert tmp. induction light as [|iRec light IH]; intros tmp Htmp Hbad.
  - inversion Hbad.
  - cbn [stack_column].
    destruct (Nat.eq_dec (length iRec) 92) as [Hlen|Hlen].
    + rewrite (reshape_size iRec 23 4 Hlen), bind_Ok.
      destruct (@vstack_23 tmp (Np.column k (Np.chunks 4 23 iRec)) Htmp)
        as [m [-> Hm]].
      { rewrite column_length. apply chunks_length. }
      rewrite bind_Ok. apply IH; [exact Hm|].
      inversion Hbad as [? ? H|? ? H]; subst; [contradiction | exact H].
    + rewrite (@reshape_Raise iRec 23 4) by exact Hlen. reflexivity.
Qed.

(** X3. On a non-empty batch of 92-element records the multi-record branch
    of [ph_434_intensity] returns one row of 23 values per record, row [r]
    holding the 434 nm signal [light[r][4 i + 1]], and [ph_578_intensity]
    the 578 nm signal [light[r][4 i + 3]]. *)
Theorem intensity_batch_rows (light : list (list R)) :
  light <> [] ->
  Forall (fun iRec => length iRec = 92%nat) light ->
  exists si434 si578 : list (list R),
    ph_434_intensity (Arr2 light) = Ok (Arr2 si434)
    /\ ph_578_intensity (Arr2 light) = Ok (Arr2 si578)
    /\ length si434 = length light /\ length si578 = length light
    /\ forall r, (r < length light)%nat ->
         length (nth r si434 []) = 23%nat
         /\ length (nth r si578 []) = 23%nat
         /\ forall i, (i < 23)%nat ->
              nth i (nth r si434 []) 0 = nth (4 * i + 1) (nth r light []) 0
              /\ nth i (nth r si578 []) 0 = nth (4 * i + 3) (nth r light []) 0.
Proof.
  intros Hne Hall. destruct light as [|iRec light]; [congruence|].
  exists (map (fun r => Np.column 1 (Np.chunks 4 23 r)) (iRec :: light)).
  exists (map (fun r => Np.column 3 (Np.chunks 4 23 r)) (iRec :: light)).
  split.
  { unfold ph_434_intensity. cbv zeta.
    rewrite (@stack_column_batch 1 iRec light Hall). reflexivity. }
  split.
  { unfold ph_578_intensity. cbv zeta.
    rewrite (@stack_column_batch 3 iRec light Hall). reflexivity. }
  split; [apply length_map|]. split; [apply length_map|].
  intros r Hr.
  rewrite !(map_nth_lt _ _ (@nil R)) by exact Hr.
  rewrite !column_length, !chunks_length.
  split; [reflexivity|]. split; [reflexivity|].
  intros i Hi. split; apply column_chunks_nth; lia.
Qed.

Lemma intensity_batch_rows_witness :
  exists si434 si578 : list (list R),
    ph_434_intensity (Arr2 [ramp_light; lin_light]) = Ok (Arr2 si434)
    /\ ph_578_intensity (Arr2 [ramp_light; lin_light]) = Ok (Arr2 si578)
    /\ length si434 = 2%nat /\ length si578 = 2%nat.
Proof.
  destruct (@intensity_batch_rows [ramp_light; lin_light])
    as [si434 [si578 [H1 [H2 [H3 [H4 _]]]]]].
  - discriminate.
  - repeat constructor.
  - exists si434, si578. repeat split; assumption.
Defined.

Lemma intensity_batch_bad_record (light : list (list R)) :
  Exists (fun iRec => length iRec <> 92%nat) light ->
  ph_434_intensity (Arr2 light) = Raise ValueError
  /\ ph_578_intensity (Arr2 light) = Raise ValueError.
Proof.
  intros Hbad. unfold ph_434_intensity, ph_578_intensity. cbv zeta.
  rewrite !stack_column_bad_record by (try exact Hbad; reflexivity).
  split; reflexivity.
Qed.

(** X4. The multi-record branch of either wrapper returns an array exactly
    when the batch is not empty and every record is 92 long.  A record of
    another length raises the [ValueError] of [np.reshape]; an empty batch
    raises [IndexError], because [tmp] is then still the one dimensional
    row of zeros when [tmp[1:, :]] is taken. *)
Theorem intensity_batch_outcome (light : list (list R)) :
  ((exists out, ph_434_intensity (Arr2 light) = Ok out)
   <-> light <> [] /\ Forall (fun iRec => length iRec = 92%nat) light)
  /\ ((exists out, ph_578_intensity (Arr2 light) = Ok out)
      <-> light <> [] /\ Forall (fun iRec => length iRec = 92%nat) light)
  /\ (Exists (fun iRec => length iRec <> 92%nat) light ->
      ph_434_intensity (Arr2 light) = Raise ValueError
      /\ ph_578_intensity (Arr2 light) = Raise ValueError)
  /\ (light = [] ->
      ph_434_intensity (Arr2 light) = Raise IndexError
      /\ ph_578_intensity (Arr2 light) = Raise IndexError).
Proof.
  assert (Hempty : light = [] ->
            ph_434_intensity (Arr2 light) = Raise IndexError
            /\ ph_578_intensity (Arr2 light) = Raise IndexError)
    by (intros ->; split; reflexivity).
  assert (Hdec : {Forall (fun iRec => length iRec = 92%nat) light}
                 + {Exists (fun iRec => length iRec <> 92%nat) light}).
  { apply Forall_Exists_dec. intros x. apply Nat.eq_dec. }
  assert (Hok : light <> [] ->
                Forall (fun iRec => length iRec = 92%nat) light ->
                (exists out, ph_434_intensity (Arr2 light) = Ok out)
                /\ (exists out, ph_578_intensity (Arr2 light) = Ok out)).
  { intros Hne Hall. destruct light as [|iRec rest]; [congruence|].
    unfold ph_434_intensity, ph_578_intensity. cbv zeta.
    rewrite (@stack_column_batch 1 iRec rest Hall).
    rewrite (@stack_column_batch 3 iRec rest Hall).
    split; eexists; reflexivity. }
  assert (Hconv : forall f : ndarray -> result ndarray,
            (light = [] -> f (Arr2 light) = Raise IndexError) ->
            (Exists (fun iRec => length iRec <> 92%nat) light ->
             f (Arr2 light) = Raise ValueError) ->
            (exists out, f (Arr2 light) = Ok out) ->
            light <> [] /\ Forall (fun iRec => length iRec = 92%nat) light).
  { intros f He Hb [out Hout]. split.
    - intros E. rewrite (He E) in Hout. discriminate Hout.
    - destruct Hdec as [Hall|Hbad]; [exact Hall|].
      rewrite (Hb Hbad) in Hout. discriminate Hout. }
  split; [|split; [|split; [apply intensity_batch_bad_record | exact Hempty]]].
  - split.
    + apply Hconv.
      * intros E. apply (Hempty E).
      * intros Hb. apply (intensity_batch_bad_record Hb).
    + intros [Hne Hall]. apply (Hok Hne Hall).
  - split.
    + apply Hconv.
      * intros E. apply (Hempty E).
      * intros Hb. apply (intensity_batch_bad_record Hb).
    + intros [Hne Hall]. apply (Hok Hne Hall).
Qed.

(** X5. The wrappers and [ph_phwater] read the same columns: on a record
    that [ph_phwater] completes, [ph_578_intensity] returns the series the
    run uses as [int578], the multi-record branch of [ph_434_intensity]
    returns its [int434], and the single-record branch of
    [ph_434_intensity] returns [int578] as well. *)
Theorem intensity_matches_run
        (ref light : list R) (therm ea434 eb434 ea578 eb578 : R)
        (psal : npval) (L : locals) :
  ph_phwater_locals ref light therm ea434 eb434 ea578 eb578 psal = Ok L ->
  ph_578_intensity (Arr1 light) = Ok (Arr1 (int578 L))
  /\ ph_578_intensity (Arr2 [light]) = Ok (Arr2 [int578 L])
  /\ ph_434_intensity (Arr2 [light]) = Ok (Arr2 [int434 L])
  /\ ph_434_intensity (Arr1 light) = Ok (Arr1 (int578 L)).
Proof.
  intros HLeq.
  pose proof (ph_phwater_locals_ran _ _ _ _ _ _ _ _ HLeq) as HL.
  pose proof (ran_light HL) as Hlen.
  rewrite (ran_int578 HL), (ran_int434 HL).
  assert (Hall : Forall (fun r => length r = 92%nat) [light])
    by (constructor; [exact Hlen | constructor]).
  split; [unfold ph_578_intensity; rewrite (reshape_size light 23 4 Hlen);
          reflexivity|].
  split; [unfold ph_578_intensity; cbv zeta;
          rewrite (@stack_column_batch 3 light [] Hall); reflexivity|].
  split; [unfold ph_434_intensity; cbv zeta;
          rewrite (@stack_column_batch 1 light [] Hall); reflexivity|].
  unfold ph_434_intensity. rewrite (reshape_size light 23 4 Hlen). reflexivity.
Qed.

Lemma intensity_matches_run_witness :
  exists L,
    ph_phwater_locals spec_ref ramp_light 10 17709 2287 107 38222 (Scalar 35)
    = Ok L
    /\ ph_578_intensity (Arr1 ramp_light) = Ok (Arr1 (int578 L))
    /\ ph_434_intensity (Arr2 [ramp_light]) = Ok (Arr2 [int434 L]).
Proof.
  destruct (@ph_phwater_locals_total spec_ref ramp_light 10 17709 2287 107 38222
              (Scalar 35)) as [L HL].
  - simpl. lia.
  - reflexivity.
  - exists 35. left. reflexivity.
  - exists L. split; [exact HL|].
    destruct (@intensity_matches_run
                spec_ref ramp_light 10 17709 2287 107 38222 (Scalar 35) L HL)
      as [H1 [_ [H3 _]]].
    split; [exact H1 | exact H3].
Defined.

(** ** Readings after the reference cycle *)

Lemma blanks_app (ref extra : list R) :
  (16 <= length ref)%nat -> blanks (ref ++ extra) = blanks ref.
Proof.
  intros H. rewrite (blanks_16 ref H).
  rewrite (blanks_16 (ref ++ extra)) by (rewrite length_app; lia).
  rewrite !app_nth1 by lia. reflexivity.
Qed.

(** X7. Only the first 16 reference readings are used: readings after them
    are neither rejected nor looked at, the outcome is the one without
    them. *)
Theorem ph_phwater_ignores_extra_ref
        (ref extra light : list R) (therm ea434 eb434 ea578 eb578 : R)
        (psal : npval) :
  (16 <= length ref)%nat ->
  ph_phwater (ref ++ extra) light therm ea434 eb434 ea578 eb578 psal
  = ph_phwater ref light therm ea434 eb434 ea578 eb578 psal.
Proof.
  intros H. unfold ph_phwater, ph_phwater_locals.
  rewrite (blanks_app ref extra H). reflexivity.
Qed.

Lemma ph_phwater_ignores_extra_ref_witness :
  ph_phwater (spec_ref ++ [0; -1]) lin_light 20 17709 2287 107 38222 (Scalar 35)
  = ph_phwater spec_ref lin_light 20 17709 2287 107 38222 (Scalar 35).
Proof.
  apply ph_phwater_ignores_extra_ref. simpl. lia.
Defined.


(** ** The indicator concentrations and the candidate pH *)

(** X11. The concentrations solve the absorbance equations: when the
    determinant [ea434' eb578' - eb434' ea578'] of the corrected
    absorptivities is not zero, [HI] and [I] at every point satisfy
    [ea434' HI + eb434' I = abs434] and [ea578' HI + eb578' I = abs578]. *)
Theorem concentrations_solve_absorbance_system
        (ref light : list R) (therm ea434 eb434 ea578 eb578 : R)
        (psal : npval) (L : locals) (i : nat) :
  ph_phwater_locals ref light therm ea434 eb434 ea578 eb578 psal = Ok L ->
  ea434' L * eb578' L - eb434' L * ea578' L <> 0 ->
  (i < 23)%nat ->
  ea434' L * nth i (HI L) 0 + eb434' L * nth i (I_ L) 0 = nth i (abs434 L) 0
  /\ ea578' L * nth i (HI L) 0 + eb578' L * nth i (I_ L) 0
     = nth i (abs578 L) 0.
Proof.
  intros HLeq HD Hi.
  pose proof (ph_phwater_locals_ran _ _ _ _ _ _ _ _ HLeq) as HL.
  rewrite (nth_HI HL Hi), (nth_I HL Hi).
  split; field; exact HD.
Qed.

Lemma concentrations_solve_absorbance_system_witness :
  exists L,
    ph_phwater_locals lin_ref lin_light 24.788 1 0 0 1 (Scalar 35) = Ok L
    /\ ea434' L * nth 0 (HI L) 0 + eb434' L * nth 0 (I_ L) 0
       = nth 0 (abs434 L) 0
    /\ ea578' L * nth 0 (HI L) 0 + eb578' L * nth 0 (I_ L) 0
       = nth 0 (abs578 L) 0.
Proof.
  destruct (@ph_phwater_locals_total lin_ref lin_light 24.788 1 0 0 1 (Scalar 35))
    as [L HLeq].
  - simpl. lia.
  - reflexivity.
  - exists 35. left. reflexivity.
  - exists L. split; [exact HLeq|].
    pose proof (ph_phwater_locals_ran _ _ _ _ _ _ _ _ HLeq) as HL.
    apply (@concentrations_solve_absorbance_system
             lin_ref lin_light 24.788 1 0 0 1 (Scalar 35) L 0 HLeq).
    + rewrite (ran_ea434 HL), (ran_ea578 HL), (ran_eb434 HL), (ran_eb578 HL).
      lra.
    + lia.
Defined.

(** X12. The candidate pH is the Henderson-Hasselbalch value of the two
    concentrations: where the divisions are defined (non-zero determinant,
    [ea434'], [abs434] and [HI]), [pointph = pKa + log10 |I / HI|]. *)
Theorem pointph_is_henderson_hasselbalch
        (ref light : list R) (therm ea434 eb434 ea578 eb578 s : R)
        (L : locals) (i : nat) :
  ph_phwater_locals ref light therm ea434 eb434 ea578 eb578 (Scalar s) = Ok L ->
  (i < 23)%nat ->
  ea434' L * eb578' L - eb434' L * ea578' L <> 0 ->
  ea434' L <> 0 ->
  nth i (abs434 L) 0 <> 0 ->
  nth i (HI L) 0 <> 0 ->
  nth i (pointph L) 0 =
    1245.69 / (therm + 273.15) + 3.8275 + 0.0021 * (35 - s)
    + Np.log10 (Rabs (nth i (I_ L) 0 / nth i (HI L) 0)).
Proof.
  intros HLeq Hi HD Hea Habs HHI.
  pose proof (ph_phwater_locals_ran _ _ _ _ _ _ _ _ HLeq) as HL.
  rewrite (@nth_pointph _ _ _ _ _ _ _ _ s L HL (or_introl eq_refl) i Hi).
  rewrite re_Cadd_real, re_clog10_tocomplex.
  rewrite (nth_HI HL Hi) in HHI.
  assert (Hnum : nth i (abs434 L) 0 * eb578' L - nth i (abs578 L) 0 * eb434' L
                 <> 0).
  { intros E. apply HHI. rewrite E. unfold Rdiv. ring. }
  replace (nth i (V1 L) 0 / nth i (V2 L) 0)
    with (nth i (I_ L) 0 / nth i (HI L) 0); [reflexivity|].
  rewrite (nth_V1 HL Hi), (nth_V2 HL Hi), (nth_R HL Hi).
  rewrite (ran_e1 HL), (ran_e2 HL), (ran_e3 HL).
  rewrite (nth_HI HL Hi), (nth_I HL Hi).
  field. repeat split; try assumption.
  intros E. apply Hnum. lra.
Qed.

Lemma pointph_is_henderson_hasselbalch_witness :
  exists L,
    ph_phwater_locals lin_ref lin_light 24.788 1 0 0 1 (Scalar 35) = Ok L
    /\ nth 0 (pointph L) 0 =
         1245.69 / (24.788 + 273.15) + 3.8275 + 0.0021 * (35 - 35)
         + Np.log10 (Rabs (nth 0 (I_ L) 0 / nth 0 (HI L) 0)).
Proof.
  destruct (@ph_phwater_locals_total lin_ref lin_light 24.788 1 0 0 1 (Scalar 35))
    as [L HLeq].
  - simpl. lia.
  - reflexivity.
  - exists 35. left. reflexivity.
  - exists L. split; [exact HLeq|].
    pose proof (ph_phwater_locals_ran _ _ _ _ _ _ _ _ HLeq) as HL.
    assert (H0 : (0 < 23)%nat) by lia.
    assert (Hea434 : ea434' L = 1) by (rewrite (ran_ea434 HL); lra).
    assert (Hea578 : ea578' L = 0) by (rewrite (ran_ea578 HL); lra).
    assert (Heb434 : eb434' L = 0) by (rewrite (ran_eb434 HL); lra).
    assert (Heb578 : eb578' L = 1) by (rewrite (ran_eb578 HL); lra).
    assert (Hb434 : blank434 L = 1)
      by (rewrite (ran_blank434 HL), mean4; simpl; lra).
    assert (Ha434 : nth 0 (abs434 L) 0 = 1).
    { rewrite (nth_abs434 HL H0), Hb434, log10_1.
      destruct (lin_light_sets H0) as [E0 [E1 _]]. rewrite E0, E1.
      simpl. rewrite log10_tenth. lra. }
    apply (@pointph_is_henderson_hasselbalch
             lin_ref lin_light 24.788 1 0 0 1 35 L 0 HLeq H0).
    + rewrite Hea434, Hea578, Heb434, Heb578. lra.
    + rewrite Hea434. lra.
    + rewrite Ha434. lra.
    + rewrite (nth_HI HL H0), Ha434, Hea434, Hea578, Heb434, Heb578. lra.
Defined.

(** ** More on the batch loop *)

Lemma record_ph_vector_Ok ref light therm ea434 eb434 ea578 eb578
      (psal : list R) (i : nat) (v : R) :
  record_ph ref light therm ea434 eb434 ea578 eb578 (Arr1 psal) i = Ok v
  <-> ((i < length ref)%nat /\ (i < length light)%nat /\ (i < length therm)%nat
       /\ (i < length ea434)%nat /\ (i < length eb434)%nat
       /\ (i < length ea578)%nat /\ (i < length eb578)%nat
       /\ (i < length psal)%nat)
      /\ ph_phwater (nth i ref []) (nth i light []) (nth i therm 0)
                    (nth i ea434 0) (nth i eb434 0) (nth i ea578 0)
                    (nth i eb578 0) (Scalar (nth i psal 0)) = Ok v.
Proof.
  unfold record_ph, psal_item. split.
  - intros H. bind_inv H.
    match goal with
    | E : bind (Np.getitem psal i) _ = Ok _ |- _ => bind_inv E
    end.
    repeat match goal with
           | E : Np.getrow _ _ = Ok _ |- _ =>
               apply getrow_Ok in E; destruct E as [? ->]
           | E : Np.getitem _ _ = Ok _ |- _ =>
               apply getitem_Ok in E; destruct E as [? ->]
           | E : Ok _ = Ok _ |- _ => injection E as <-
           end.
    split; [repeat (split; [assumption|]); assumption | exact H].
  - intros [[H0 [H1 [H2 [H3 [H4 [H5 [H6 H7]]]]]]] H].
    rewrite !getrow_nth, !getitem_nth by assumption.
    rewrite !bind_Ok. exact H.
Qed.

(** X16. With a salinity vector the batch call returns an array exactly
    when every input has an entry for each of the N records of [ref] and
    every record's single-record call returns; entry [i] is then
    [ph_phwater] on record [i] with the scalar salinity [psal[i]]. *)
Theorem batch_with_salinity_vector
        (ref light : list (list R)) (therm ea434 eb434 ea578 eb578 : list R)
        (psal : list R) (out : npval) :
  ph_calc_phwater
    (ManyRecords ref light therm ea434 eb434 ea578 eb578 (Some (Arr psal)))
  = Ok out
  <-> exists pH,
        out = Arr pH /\ length pH = length ref
        /\ forall i, (i < length ref)%nat ->
             ((i < length light)%nat /\ (i < length therm)%nat
              /\ (i < length ea434)%nat /\ (i < length eb434)%nat
              /\ (i < length ea578)%nat /\ (i < length eb578)%nat
              /\ (i < length psal)%nat)
             /\ ph_phwater (nth i ref []) (nth i light []) (nth i therm 0)
                           (nth i ea434 0) (nth i eb434 0) (nth i ea578 0)
                           (nth i eb578 0) (Scalar (nth i psal 0))
                = Ok (nth i pH 0).
Proof.
  unfold ph_calc_phwater. cbv zeta. simpl psal_default. simpl tile_psal. split.
  - intros H. bind_inv H. injection H as <-.
    match goal with
    | E : record_loop _ _ _ = Ok ?a |- _ =>
        apply record_loop_range in E; destruct E as [Hlen Hbody]; exists a
    end.
    split; [reflexivity|]. split; [exact Hlen|].
    intros i Hi. specialize (Hbody i Hi).
    apply record_ph_vector_Ok in Hbody.
    destruct Hbody as [[_ Hlens] Hph]. split; [exact Hlens | exact Hph].
  - intros [pH [-> [Hlen Hall]]].
    assert (E : record_loop
                  (record_ph ref light therm ea434 eb434 ea578 eb578 (Arr1 psal))
                  (seq 0 (length ref)) (Np.zeros (length ref)) = Ok pH).
    { apply record_loop_range. split; [exact Hlen|].
      intros i Hi. apply record_ph_vector_Ok.
      destruct (Hall i Hi) as [Hlens Hph].
      split; [split; [exact Hi | exact Hlens] | exact Hph]. }
    rewrite E. reflexivity.
Qed.

Lemma record_loop_Raise_inv (body : nat -> result R) (n a : nat)
      (acc : list R) (e : exn) :
  record_loop body (seq a n) acc = Raise e ->
  exists i, (a <= i < a + n)%nat /\ body i = Raise e
            /\ forall k, (a <= k < i)%nat -> exists v, body k = Ok v.
Proof.
  revert a acc. induction n as [|n IH]; intros a acc H.
  - discriminate H.
  - cbn [seq record_loop] in H.
    destruct (body a) as [v|e'] eqn:Ea.
    + rewrite bind_Ok in H. apply IH in H.
      destruct H as [i [Hi [Hbody Hpre]]].
      exists i. split; [lia|]. split; [exact Hbody|].
      intros k Hk. destruct (Nat.eq_dec k a) as [->|Hne].
      * exists v. exact Ea.
      * apply Hpre. lia.
    + simpl in H. injection H as ->.
      exists a. split; [lia|]. split; [exact Ea|].
      intros k Hk. lia.
Qed.

(** X17. The batch call raises [e] exactly when some record raises [e] and
    every record before it returns: the exception that comes out is the one
    of the first failing record, and nothing else makes the call fail. *)
Theorem batch_raises_iff_a_record_raises
        (ref light : list (list R)) (therm ea434 eb434 ea578 eb578 : list R)
        (psal : option npval) (e : exn) :
  let body := record_ph ref light therm ea434 eb434 ea578 eb578
                        (tile_psal (psal_default psal) (length ref)) in
  ph_calc_phwater (ManyRecords ref light therm ea434 eb434 ea578 eb578 psal)
  = Raise e
  <-> exists i, (i < length ref)%nat /\ body i = Raise e
                /\ forall k, (k < i)%nat -> exists v, body k = Ok v.
Proof.
  intros body. unfold ph_calc_phwater. cbv zeta. fold body. split.
  - intros H.
    destruct (record_loop body (seq 0 (length ref)) (Np.zeros (length ref)))
      as [pH|e'] eqn:E; [discriminate H|].
    simpl in H. injection H as ->.
    apply record_loop_Raise_inv in E.
    destruct E as [i [Hi [Hbody Hpre]]].
    exists i. split; [lia|]. split; [exact Hbody|].
    intros k Hk. apply Hpre. lia.
  - intros [i [Hi [Hbody Hpre]]].
    rewrite (seq_split_at Hi).
    rewrite (@record_loop_Raise body _ _ i e).
    + reflexivity.
    + intros k Hk. apply in_seq in Hk. apply Hpre. lia.
    + exact Hbody.
Qed.

Lemma record_loop_ext (body body' : nat -> result R) (idx : list nat)
      (acc : list R) :
  (forall i, In i idx -> body i = body' i) ->
  record_loop body idx acc = record_loop body' idx acc.
Proof.
  revert acc. induction idx as [|i idx IH]; intros acc H; simpl; [reflexivity|].
  rewrite <- (H i) by (left; reflexivity).
  destruct (body i) as [v|e]; [|reflexivity].
  rewrite !bind_Ok. apply IH. intros j Hj. apply H. right. exact Hj.
Qed.

Lemma getrow_app (a b : list (list R)) (i : nat) :
  (i < length a)%nat -> Np.getrow (a ++ b) i = Np.getrow a i.
Proof. intros H. unfold Np.getrow. rewrite nth_error_app1 by exact H. reflexivity. Qed.

Lemma getitem_app (a b : list R) (i : nat) :
  (i < length a)%nat -> Np.getitem (a ++ b) i = Np.getitem a i.
Proof. intros H. unfold Np.getitem. rewrite nth_error_app1 by exact H. reflexivity. Qed.

(** X18. The number of records is taken from [ref] alone: rows of [light]
    and entries of the thermistor and coefficient vectors beyond it are
    never read, so appending any to inputs that cover the records of [ref]
    changes nothing. *)
Theorem batch_ignores_entries_beyond_ref
        (ref light xlight : list (list R))
        (therm ea434 eb434 ea578 eb578 xtherm xea434 xeb434 xea578 xeb578 : list R)
        (psal : option npval) :
  (length ref <= length light)%nat -> (length ref <= length therm)%nat ->
  (length ref <= length ea434)%nat -> (length ref <= length eb434)%nat ->
  (length ref <= length ea578)%nat -> (length ref <= length eb578)%nat ->
  ph_calc_phwater
    (ManyRecords ref (light ++ xlight) (therm ++ xtherm) (ea434 ++ xea434)
                 (eb434 ++ xeb434) (ea578 ++ xea578) (eb578 ++ xeb578) psal)
  = ph_calc_phwater
      (ManyRecords ref light therm ea434 eb434 ea578 eb578 psal).
Proof.
  intros H1 H2 H3 H4 H5 H6. unfold ph_calc_phwater. cbv zeta.
  rewrite (@record_loop_ext
             (record_ph ref (light ++ xlight) (therm ++ xtherm)
                        (ea434 ++ xea434) (eb434 ++ xeb434) (ea578 ++ xea578)
                        (eb578 ++ xeb578)
                        (tile_psal (psal_default psal) (length ref)))
             (record_ph ref light therm ea434 eb434 ea578 eb578
                        (tile_psal (psal_default psal) (length ref)))).
  - reflexivity.
  - intros i Hi. apply in_seq in Hi. unfold record_ph.
    rewrite getrow_app, !getitem_app by lia. reflexivity.
Qed.

Lemma batch_ignores_entries_beyond_ref_witness :
  ph_calc_phwater
    (ManyRecords [lin_ref] ([lin_light] ++ [ramp_light]) ([24.788] ++ [0])
                 ([1] ++ []) ([0] ++ [7]) ([0] ++ []) ([1] ++ [2; 3]) None)
  = ph_calc_phwater (ManyRecords [lin_ref] [lin_light] [24.788] [1] [0] [0] [1] None).
Proof.
  apply batch_ignores_entries_beyond_ref; simpl; lia.
Defined.
